(** * Regalpaket containers of the Notenregal server

    A shallow embedding of the Regalpaket routes of the Express server
    (conversion of a PDF into a [.regal] archive, reading the manifest, a
    page image and a page's annotations, and saving a page's annotations),
    together with the properties of the container format that hold, or do
    not hold, of that code.

    Modelling conventions.
    - The library directory is a finite map from file names to file
      contents; [annotations.json] and [shelves.json] are kept as the values
      they parse to.
    - What the server takes from its runtime (JSON.stringify / JSON.parse,
      the archiver and unzipper packages, pdf-to-img, encodeURIComponent) is
      an interface, [Runtime], with the round-trip laws of the two codecs.
    - The scratch directory of a request is a set of directory names and a
      map from relative file paths to contents.  Paths are used as written:
      route parameters and archive entry names are single, normalised path
      segments resp. normalised relative paths, so that [path.join] is
      concatenation with a separator.  Each request gets a scratch directory
      of its own (the [Date.now()] names are taken to be distinct).
    - Handlers start from the decoded file name.
    - A save is given twice: as the handler run to its end, and as the
      sequence of its effects on the file system, which can be cut short or
      interleaved with the effects of another request; extraction reads the
      entries listed when the archive was opened. *)

From Stdlib Require Import Ascii String.
From stdpp Require Import gmap strings pretty list fin_maps.

Local Open Scope string_scope.

(** ** Data *)

(** An entry of [directory.files] as unzipper presents it. *)
Inductive entry_type := File | Directory.

Global Instance entry_type_eq_dec : EqDecision entry_type.
Proof. solve_decision. Defined.

Record zip_entry (B : Type) := ZipEntry {
  path : string;
  type : entry_type;
  buffer : B
}.
Arguments ZipEntry {B} _ _ _.
Arguments path {B} _.
Arguments type {B} _.
Arguments buffer {B} _.

(** The manifest object written at conversion time. *)
Record page_ref := PageRef { page : N; file : string }.

Record manifest := Manifest {
  version : Z;
  name : string;
  created : string;
  pageCount : N;
  originalFile : string;
  pages : list page_ref
}.

Record shelf := Shelf { id : string; shelf_name : string; files : list string }.

(** Exceptions that reach the [catch] of a handler. *)
Inductive exn := ZipError | SyntaxError | RenderError.

(** What a handler sends: [res.json(body)] or [res.send(body)] with status
    200, [res.status(c).json({error})], or the [catch] branch
    [res.status(500).json({error: err.message})]. *)
Inductive response (A : Type) :=
  | Reply (body : A)
  | Status (code : N) (error : string)
  | Status500 (err : exn).
Arguments Reply {A} _.
Arguments Status {A} _ _.
Arguments Status500 {A} _.

Definition body_of {A} (r : response A) : option A :=
  match r with Reply a => Some a | _ => None end.

(** The body of a successful conversion. *)
Record converted := Converted {
  conv_name : string;
  conv_path : string;
  conv_pageCount : N
}.

(** ** The runtime interface *)

(** The codecs are taken with their round-trip laws: a value that came out
    of [JSON.parse] (a request body, a stored overlay) is read back from its
    [JSON.stringify] text, and unzipper lists the entries archiver wrote. *)
Class Runtime := {
  blob : Type;
  stroke : Type;
  (** a file of length zero *)
  empty_file : blob;
  (** [JSON.stringify(strokes, null, 2)] and [JSON.parse] at an overlay *)
  JSON_stringify_strokes : list stroke → blob;
  JSON_parse_strokes : blob → option (list stroke);
  JSON_strokes_roundtrip :
    ∀ s, JSON_parse_strokes (JSON_stringify_strokes s) = Some s;
  (** [JSON.stringify(manifest, null, 2)] and [JSON.parse] at a manifest *)
  JSON_stringify_manifest : manifest → blob;
  JSON_parse_manifest : blob → option manifest;
  JSON_manifest_roundtrip :
    ∀ m, JSON_parse_manifest (JSON_stringify_manifest m) = Some m;
  (** archiver's zip of a list of entries, and [unzipper.Open.file] *)
  archiver_zip : list (zip_entry blob) → blob;
  unzipper_open : blob → option (list (zip_entry blob));
  zip_roundtrip : ∀ es, unzipper_open (archiver_zip es) = Some es;
  (** pdf-to-img: the page images of a document, in document order *)
  pdf : blob → option (list blob);
  encodeURIComponent : string → string
}.

(** ** Strings: the few JavaScript string functions the routes use *)

Definition toLowerCase_ascii (c : ascii) : ascii :=
  let n := nat_of_ascii c in
  if bool_decide (65 ≤ n ≤ 90)%nat then ascii_of_nat (n + 32) else c.

Fixpoint toLowerCase (s : string) : string :=
  match s with
  | EmptyString => EmptyString
  | String c s' => String (toLowerCase_ascii c) (toLowerCase s')
  end.

Definition endsWith (s suffix : string) : bool :=
  bool_decide (String.length suffix ≤ String.length s)%nat &&
  bool_decide (substring (String.length s - String.length suffix)
                         (String.length suffix) s = suffix).

(** [decodedFileName.replace(/\.pdf$/i, '')] *)
Definition strip_pdf (s : string) : string :=
  if endsWith (toLowerCase s) ".pdf"
  then substring 0 (String.length s - 4) s
  else s.

Definition annotation_path (pageNum : string) : string :=
  "annotations/page-" +:+ pageNum +:+ ".json".

Definition page_file (pageNum : string) : string :=
  "page-" +:+ pageNum +:+ ".png".

Definition page_path (pageNum : string) : string :=
  "pages/" +:+ page_file pageNum.

(** The directories [path.dirname] and [mkdirSync(.., {recursive: true})]
    create for a relative file path: every proper prefix that ends before a
    separator. *)
Fixpoint dirnames (acc s : string) : list string :=
  match s with
  | EmptyString => []
  | String c s' =>
      if decide (c = "/"%char)
      then acc :: dirnames (acc +:+ "/") s'
      else dirnames (acc +:+ String c EmptyString) s'
  end.

(** ** Where [path.join] is concatenation, and where an object has only
    its own keys

    The handlers build every path with [path.join], which normalises its
    result: it drops empty and [.] segments and lets a [..] segment climb
    out of the directory.  Below, a file is kept under its path as
    written; this is what [path.join] gives for a name that is a single
    segment, and for a relative path all of whose segments are such names.
    The properties that depend on it carry it as a hypothesis. *)
Fixpoint no_separator (s : string) : bool :=
  match s with
  | EmptyString => true
  | String c s' =>
      negb (Ascii.eqb c "/"%char) && negb (Ascii.eqb c "000"%char)
      && no_separator s'
  end.

(** A name that [path.join(dir, name)] leaves as it is: one segment, not
    empty, not [.] and not [..]. *)
Definition plain_name (s : string) : bool :=
  no_separator s
  && negb (String.eqb s EmptyString)
  && negb (String.eqb s ".") && negb (String.eqb s "..").

Fixpoint segments (cur s : string) : list string :=
  match s with
  | EmptyString => [cur]
  | String c s' =>
      if Ascii.eqb c "/"%char then cur :: segments EmptyString s'
      else segments (cur +:+ String c EmptyString) s'
  end.

(** A relative path that [path.join(dir, p)] leaves as it is. *)
Definition safe_path (p : string) : bool :=
  forallb plain_name (segments EmptyString p).

(** The names that every object inherits from [Object.prototype].  The
    stores are plain objects read with [JSON.parse]: [store[k]] for one of
    these names answers the inherited member where the object has no key
    of its own, and an assignment to [__proto__] sets the prototype
    instead of a key.  Below, a store is the finite map of its own keys;
    this is what the code does for every other key.  The properties that
    depend on it carry it as a hypothesis. *)
Definition prototype_keys : list string :=
  ["constructor"; "__proto__"; "hasOwnProperty"; "isPrototypeOf";
   "propertyIsEnumerable"; "toLocaleString"; "toString"; "valueOf";
   "__defineGetter__"; "__defineSetter__"; "__lookupGetter__";
   "__lookupSetter__"].

Definition own_key (k : string) : bool :=
  bool_decide (k ∉ prototype_keys).

(** The last character of a path; archiver names a directory entry with a
    trailing separator. *)
Fixpoint string_last (s : string) : option ascii :=
  match s with
  | EmptyString => None
  | String c EmptyString => Some c
  | String _ s' => string_last s'
  end.

(** [shelf.files.indexOf(old)] followed by [shelf.files[idx] = new]. *)
Definition replace_first (old new : string) (fs : list string) : list string :=
  match list_find (λ f, f = old) fs with
  | Some (idx, _) => <[idx := new]> fs
  | None => fs
  end.

Definition update_shelf (old new : string) (s : shelf) : shelf :=
  {| id := id s; shelf_name := shelf_name s;
     files := replace_first old new (files s) |}.

Section Server.
Context `{RT : Runtime}.

Local Abbreviation entry := (zip_entry blob).

(** ** State *)

Record server := Server {
  library : gmap string blob;
  annotations : gmap string (gmap string (list stroke));
  shelves : list shelf
}.

(** A scratch directory [.temp-<timestamp>]. *)
Record tempdir := TempDir {
  td_dirs : gset string;
  td_files : gmap string blob
}.

Definition mkdirSync (d : string) (t : tempdir) : tempdir :=
  {| td_dirs := {[d]} ∪ td_dirs t; td_files := td_files t |}.

Definition writeFileSync (p : string) (c : blob) (t : tempdir) : tempdir :=
  {| td_dirs := td_dirs t; td_files := <[p := c]> (td_files t) |}.

Definition unlinkSync (p : string) (t : tempdir) : tempdir :=
  {| td_dirs := td_dirs t; td_files := delete p (td_files t) |}.

Definition existsSync (p : string) (t : tempdir) : bool :=
  bool_decide (is_Some (td_files t !! p)).

(** Lines 809-812 and 593-595: the scratch directory with its two
    subdirectories. *)
Definition fresh_tempdir : tempdir :=
  mkdirSync "annotations" (mkdirSync "pages" (TempDir ∅ ∅)).

(** [archive.directory(tempDir, false)]: one entry per directory (name
    with a trailing separator, no data) and one per file. *)
Definition archive_directory (t : tempdir) : list entry :=
  ((λ d, ZipEntry (d +:+ "/") Directory empty_file) <$> elements (td_dirs t))
  ++ ((λ pc, ZipEntry pc.1 File pc.2) <$> map_to_list (td_files t)).

(** [directory.files.find(f => f.path === p)] *)
Definition find_path (p : string) (fs : list entry) : option entry :=
  snd <$> list_find (λ f, path f = p) fs.

(** ** Reading a container *)

(** GET /api/regalpaket/:fileName/manifest *)
Definition get_manifest (st : server) (decodedFileName : string)
  : response manifest :=
  match library st !! decodedFileName with
  | None => Status 404 "Regalpaket not found"
  | Some b =>
    match unzipper_open b with
    | None => Status500 ZipError
    | Some directory =>
      match find_path "manifest.json" directory with
      | None => Status 400 "Invalid Regalpaket: no manifest found"
      | Some manifestFile =>
        match JSON_parse_manifest (buffer manifestFile) with
        | None => Status500 SyntaxError
        | Some m => Reply m
        end
      end
    end
  end.

(** GET /api/regalpaket/:fileName/page/:pageNum *)
Definition get_page (st : server) (decodedFileName pageNum : string)
  : response blob :=
  match library st !! decodedFileName with
  | None => Status 404 "Regalpaket not found"
  | Some b =>
    match unzipper_open b with
    | None => Status500 ZipError
    | Some directory =>
      match find_path (page_path pageNum) directory with
      | None => Status 404 "Page not found"
      | Some pageFile => Reply (buffer pageFile)
      end
    end
  end.

(** GET /api/regalpaket/:fileName/annotations/:pageNum *)
Definition get_annotations (st : server) (decodedFileName pageNum : string)
  : response (list stroke) :=
  match library st !! decodedFileName with
  | None => Status 404 "Regalpaket not found"
  | Some b =>
    match unzipper_open b with
    | None => Status500 ZipError
    | Some directory =>
      match find_path (annotation_path pageNum) directory with
      | None => Reply []
      | Some annotationFile =>
        match JSON_parse_strokes (buffer annotationFile) with
        | None => Status500 SyntaxError
        | Some strokes => Reply strokes
        end
      end
    end
  end.

(** GET /api/regalpaket/:fileName/has-annotations *)
Definition has_annotations (st : server) (decodedFileName : string)
  : response bool :=
  match library st !! decodedFileName with
  | None => Status 404 "Regalpaket not found"
  | Some b =>
    match unzipper_open b with
    | None => Status500 ZipError
    | Some directory =>
      Reply (existsb (λ f, String.prefix "annotations/" (path f)
                           && endsWith (path f) ".json") directory)
    end
  end.

(** ** Conversion *)

(** Lines 603-608: the rendered images are numbered in the order in which
    the renderer yields them. *)
Fixpoint write_pages (images : list blob) (pageNum : N)
    (pageData : list page_ref) (t : tempdir) : N * list page_ref * tempdir :=
  match images with
  | [] => (pageNum, pageData, t)
  | image :: rest =>
      let pageNum := (pageNum + 1)%N in
      write_pages rest pageNum
        (pageData ++ [PageRef pageNum (page_file (pretty pageNum))])
        (writeFileSync (page_path (pretty pageNum)) image t)
  end.

(** Lines 615-618: one file per page of the PDF's overlay store. *)
Definition write_annotations (pdfAnnotations : gmap string (list stroke))
    (t : tempdir) : tempdir :=
  map_fold (λ pageNumber strokes t,
              writeFileSync (annotation_path pageNumber)
                (JSON_stringify_strokes strokes) t)
           t pdfAnnotations.

Definition regal_name (decodedFileName : string) : string :=
  strip_pdf decodedFileName +:+ ".regal".

(** POST /api/regalpaket/convert/:fileName; [now] is the value of
    [new Date().toISOString()]. *)
Definition convert (now : string) (st : server) (decodedFileName : string)
  : response converted * server :=
  if negb (endsWith (toLowerCase decodedFileName) ".pdf")
  then (Status 400 "Only PDF files can be converted", st)
  else
    match library st !! decodedFileName with
    | None => (Status 404 "PDF file not found", st)
    | Some pdfFile =>
      let baseName := strip_pdf decodedFileName in
      let regalName := regal_name decodedFileName in
      match pdf pdfFile with
      | None => (Status500 RenderError, st)
      | Some pdfDocument =>
        let '(pageNum, pageData, t) :=
          write_pages pdfDocument 0 [] fresh_tempdir in
        let pdfAnnotations :=
          default ∅ (annotations st !! decodedFileName) in
        let t := write_annotations pdfAnnotations t in
        let t := writeFileSync "original.pdf" pdfFile t in
        let m := {| version := 1; name := baseName; created := now;
                    pageCount := pageNum; originalFile := "original.pdf";
                    pages := pageData |} in
        let t := writeFileSync "manifest.json" (JSON_stringify_manifest m) t in
        (Reply {| conv_name := regalName;
                 conv_path := "/library/" +:+ encodeURIComponent regalName;
                 conv_pageCount := pageNum |},
         {| library :=
              <[regalName := archiver_zip (archive_directory t)]> (library st);
            annotations := delete decodedFileName (annotations st);
            shelves := update_shelf decodedFileName regalName <$> shelves st |})
      end
    end.

(** The scratch directory a conversion archives. *)
Definition converted_dir (now decodedFileName : string) (pdfFile : blob)
    (images : list blob) (prior : gmap string (list stroke)) : tempdir :=
  let w := write_pages images 0 [] fresh_tempdir in
  writeFileSync "manifest.json"
    (JSON_stringify_manifest
       {| version := 1; name := strip_pdf decodedFileName; created := now;
          pageCount := w.1.1; originalFile := "original.pdf";
          pages := w.1.2 |})
    (writeFileSync "original.pdf" pdfFile (write_annotations prior w.2)).

(** ** Saving a page's annotations *)

(** [strokes && strokes.length > 0] for an absent or present list. *)
Definition nonempty (strokes : option (list stroke)) : bool :=
  match strokes with
  | Some l => bool_decide (0 < length l)%nat
  | None => false
  end.

(** Lines 815-825, one iteration. *)
Definition extract_entry (t : tempdir) (f : entry) : tempdir :=
  match type f with
  | File =>
      writeFileSync (path f) (buffer f)
        (foldr mkdirSync t (dirnames EmptyString (path f)))
  | Directory => t
  end.

(** Lines 828-833. *)
Definition update_annotation (pageNum : string)
    (strokes : option (list stroke)) (t : tempdir) : tempdir :=
  let annotationPath := annotation_path pageNum in
  if nonempty strokes
  then writeFileSync annotationPath
         (JSON_stringify_strokes (default [] strokes)) t
  else if existsSync annotationPath t
       then unlinkSync annotationPath t
       else t.

(** PUT /api/regalpaket/:fileName/annotations/:pageNum, run to its end.
    [fs.createWriteStream(regalPath)] opens the container itself for
    writing, which empties it; the archive is then streamed into it. *)
Definition put_annotations (st : server) (decodedFileName pageNum : string)
    (strokes : option (list stroke)) : response () * server :=
  match library st !! decodedFileName with
  | None => (Status 404 "Regalpaket not found", st)
  | Some b =>
    match unzipper_open b with
    | None => (Status500 ZipError, st)
    | Some directory =>
      let t := foldl extract_entry fresh_tempdir directory in
      let t := update_annotation pageNum strokes t in
      let lib := <[decodedFileName := empty_file]> (library st) in
      let lib :=
        <[decodedFileName := archiver_zip (archive_directory t)]> lib in
      (Reply (),
       {| library := lib; annotations := annotations st;
          shelves := shelves st |})
    end
  end.

(** The scratch directory from which the handler rebuilds the archive. *)
Definition rebuilt (directory : list entry) (pageNum : string)
    (strokes : option (list stroke)) : tempdir :=
  update_annotation pageNum strokes
    (foldl extract_entry fresh_tempdir directory).

(** *** The same handler, one file-system effect at a time

    The points of the handler between which the process can stop, or
    another request can run.  The state is the content [lib] of the files
    of the library and, per request, the content [temp] of its scratch
    directory, which lies in the library directory under a name of its
    own.  Entry paths and the page number are used as written, which is
    what [path.join] does for a [safe_container] and a decimal page
    number. *)
Inductive put_pc :=
  | AtExists                           (* line 801 *)
  | AtOpen                             (* line 806 *)
  | AtMkdir (directory : list entry)   (* lines 809-812 *)
  | AtExtract (pending : list entry)   (* lines 815-825 *)
  | AtUpdate                           (* lines 828-833 *)
  | AtCreateWriteStream                (* line 836 *)
  | AtFinalize                         (* lines 837-846, the stream at once *)
  | AtCleanup                          (* line 849 *)
  | AtRespond                          (* line 851 *)
  | Done (r : response ()).

Record put_proc := PutProc { pc : put_pc; temp : tempdir }.

Record put_request := PutRequest {
  req_fileName : string;
  req_pageNum : string;
  req_strokes : option (list stroke)
}.

Definition put_start : put_proc := PutProc AtExists (TempDir ∅ ∅).

Definition put_step (r : put_request) (lib : gmap string blob)
    (p : put_proc) : gmap string blob * put_proc :=
  match pc p with
  | AtExists =>
      match lib !! req_fileName r with
      | None =>
          (lib, PutProc (Done (Status 404 "Regalpaket not found")) (temp p))
      | Some _ => (lib, PutProc AtOpen (temp p))
      end
  | AtOpen =>
      match lib !! req_fileName r ≫= unzipper_open with
      | None => (lib, PutProc (Done (Status500 ZipError)) (temp p))
      | Some directory => (lib, PutProc (AtMkdir directory) (temp p))
      end
  | AtMkdir directory => (lib, PutProc (AtExtract directory) fresh_tempdir)
  | AtExtract [] => (lib, PutProc AtUpdate (temp p))
  | AtExtract (f :: rest) =>
      (lib, PutProc (AtExtract rest) (extract_entry (temp p) f))
  | AtUpdate =>
      (lib, PutProc AtCreateWriteStream
              (update_annotation (req_pageNum r) (req_strokes r) (temp p)))
  | AtCreateWriteStream =>
      (<[req_fileName r := empty_file]> lib, PutProc AtFinalize (temp p))
  | AtFinalize =>
      (<[req_fileName r := archiver_zip (archive_directory (temp p))]> lib,
       PutProc AtCleanup (temp p))
  | AtCleanup => (lib, PutProc AtRespond (TempDir ∅ ∅))
  | AtRespond => (lib, PutProc (Done (Reply ())) (temp p))
  | Done _ => (lib, p)
  end.

(** The handler stopped after [n] effects. *)
Fixpoint put_run (n : nat) (r : put_request) (lib : gmap string blob)
    (p : put_proc) : gmap string blob * put_proc :=
  match n with
  | O => (lib, p)
  | S n => let '(lib', p') := put_step r lib p in put_run n r lib' p'
  end.

(** The container has not been opened for writing yet. *)
Definition before_write (c : put_pc) : bool :=
  match c with
  | AtExists | AtOpen | AtMkdir _ | AtExtract _ | AtUpdate
  | AtCreateWriteStream => true
  | Done (Reply _) => false
  | Done _ => true
  | _ => false
  end.

(** The scratch directory [.temp-<timestamp>] lies in the library
    directory itself (line 809): [temp] is what it holds, beside the files
    [lib] of the library.  It exists from the first [mkdirSync] until the
    clean-up of line 849. *)
Definition scratch_made (c : put_pc) : bool :=
  match c with
  | AtExtract _ | AtUpdate | AtCreateWriteStream | AtFinalize | AtCleanup =>
      true
  | _ => false
  end.

(** Once made, the scratch directory has its two subdirectories. *)
Definition scratch_there (c : put_proc) : Prop :=
  scratch_made (pc c) = true →
  "pages" ∈ td_dirs (temp c) ∧ "annotations" ∈ td_dirs (temp c).

(** The file entries of the container have paths that [path.join]
    (line 818) leaves as they are. *)
Definition safe_container (lib : gmap string blob) (f : string) : bool :=
  match lib !! f ≫= unzipper_open with
  | None => true
  | Some directory =>
      forallb (λ e : entry,
                 match type e with
                 | File => safe_path (path e)
                 | Directory => true
                 end) directory
  end.

(** An effect that throws instead of taking place: the [catch] block
    (lines 853-856) logs the error and answers 500; it touches no file and
    does not remove the scratch directory. *)
Definition put_throw (e : exn) (p : put_proc) : put_proc :=
  match pc p with
  | Done _ => p
  | _ => PutProc (Done (Status500 e)) (temp p)
  end.

(** How a request ends early: the process is killed, or the effect that
    is due throws. *)
Inductive stop := Killed | Threw (e : exn).

Definition put_stopped (n : nat) (how : stop) (r : put_request)
    (lib : gmap string blob) : gmap string blob * put_proc :=
  let '(lib', p) := put_run n r lib put_start in
  match how with
  | Killed => (lib', p)
  | Threw e => (lib', put_throw e p)
  end.

(** Two requests in flight on the event loop: a schedule says whose effect
    comes next. *)
Inductive turn := First | Second.

Fixpoint interleave (sched : list turn) (r1 r2 : put_request)
    (lib : gmap string blob) (p1 p2 : put_proc)
  : gmap string blob * put_proc * put_proc :=
  match sched with
  | [] => (lib, p1, p2)
  | First :: sched =>
      let '(lib', p1') := put_step r1 lib p1 in
      interleave sched r1 r2 lib' p1' p2
  | Second :: sched =>
      let '(lib', p2') := put_step r2 lib p2 in
      interleave sched r1 r2 lib' p1 p2'
  end.

(** ** A container changed from outside

    What a tool that removes one entry from the archive leaves behind. *)
Definition delete_entry (st : server) (decodedFileName p : string) : server :=
  match library st !! decodedFileName ≫= unzipper_open with
  | None => st
  | Some directory =>
      {| library :=
           <[decodedFileName :=
               archiver_zip (filter (λ e, path e ≠ p) directory)]>
             (library st);
         annotations := annotations st;
         shelves := shelves st |}
  end.

End Server.

(** ** A reference runtime

    File contents are kept as what they encode: raw bytes, the JSON text of
    an overlay or of a manifest, or a zip archive with its entries.  Strokes
    follow the records the annotation canvas produces; the renderer yields
    one image per byte of the document. *)
Module Reference.

Record ref_stroke := RefStroke {
  tool : string;
  color : string;
  lineWidth : N;
  points : list (Z * Z)
}.

#[warnings="-register-all"]
Inductive ref_blob :=
  | Bytes (s : string)
  | StrokesJson (l : list ref_stroke)
  | ManifestJson (m : manifest)
  | Zip (es : list (zip_entry ref_blob)).

Definition parse_strokes (b : ref_blob) : option (list ref_stroke) :=
  match b with StrokesJson l => Some l | _ => None end.

Definition parse_manifest (b : ref_blob) : option manifest :=
  match b with ManifestJson m => Some m | _ => None end.

Definition open_zip (b : ref_blob) : option (list (zip_entry ref_blob)) :=
  match b with Zip es => Some es | _ => None end.

Fixpoint render (s : string) : list ref_blob :=
  match s with
  | EmptyString => []
  | String c s' => Bytes (String c EmptyString) :: render s'
  end.

Definition render_pdf (b : ref_blob) : option (list ref_blob) :=
  match b with Bytes s => Some (render s) | _ => None end.

#[export] Instance runtime : Runtime := {|
  blob := ref_blob;
  stroke := ref_stroke;
  empty_file := Bytes EmptyString;
  JSON_stringify_strokes := StrokesJson;
  JSON_parse_strokes := parse_strokes;
  JSON_strokes_roundtrip := λ _, eq_refl;
  JSON_stringify_manifest := ManifestJson;
  JSON_parse_manifest := parse_manifest;
  JSON_manifest_roundtrip := λ _, eq_refl;
  archiver_zip := Zip;
  unzipper_open := open_zip;
  zip_roundtrip := λ _, eq_refl;
  pdf := render_pdf;
  encodeURIComponent := λ s, s
|}.

(** A pen stroke of four points. *)
Definition pen : ref_stroke :=
  RefStroke "pen" "#1a1a1a" 4 [(10, 10); (12, 14); (15, 19); (20, 25)]%Z.

Definition highlight : ref_stroke :=
  RefStroke "highlighter" "#ffeb3b" 12 [(0, 0); (40, 0)]%Z.

(** A library with one three-page PDF that has an overlay on page 2 and
    stands on one shelf. *)
Definition st0 : server :=
  {| library := {[ "song.pdf" := Bytes "abc" ]};
     annotations := {[ "song.pdf" := {[ "2" := [pen] ]} ]};
     shelves := [Shelf "shelf-1" "Etudes" ["intro.pdf"; "song.pdf"]] |}.

(** The same library after the conversion of the PDF. *)
Definition st1 : server :=
  (convert "2024-01-01T00:00:00.000Z" st0 "song.pdf").2.

(** Two saves on different pages of the converted container. *)
Definition save_page1 : put_request :=
  PutRequest "song.regal" "1" (Some [pen]).



(** A library with a five-page PDF, one with a PDF that renders to no
    page, and one with a container whose manifest carries version 2. *)
Definition st_suite : server :=
  {| library := {[ "suite.pdf" := Bytes "abcde" ]};
     annotations := ∅; shelves := [] |}.

Definition st_blank : server :=
  {| library := {[ "blank.pdf" := Bytes EmptyString ]};
     annotations := ∅; shelves := [] |}.

Definition manifest_v2 : manifest :=
  {| version := 2; name := "future"; created := "2030-01-01T00:00:00.000Z";
     pageCount := 1; originalFile := "original.pdf";
     pages := [PageRef 1 "page-1.png"] |}.

Definition st_future : server :=
  {| library :=
       {[ "future.regal" :=
            Zip [ZipEntry "pages/" Directory (Bytes EmptyString);
                 ZipEntry "manifest.json" File (ManifestJson manifest_v2);
                 ZipEntry "original.pdf" File (Bytes "a");
                 ZipEntry "pages/page-1.png" File (Bytes "a")] ]};
     annotations := ∅; shelves := [] |}.

End Reference.


(** * The other routes of the server

    The routes around the container routes: sessions and the password, the
    shelves, the favourites, the overlay store of the PDFs, renaming a file,
    and the two remaining container reads.  Strings are ASCII; the keys of a
    JSON object are taken not to be names that [Object.prototype] defines. *)

(** ** More JavaScript string functions *)

(** [!s] is false for a present, non-empty string only. *)
Definition truthy (s : option string) : bool :=
  match s with
  | Some (String _ _) => true
  | _ => false
  end.

Definition is_whitespace (c : ascii) : bool :=
  let n := nat_of_ascii c in
  bool_decide (9 ≤ n ≤ 13)%nat || bool_decide (n = 32)%nat.

Fixpoint trimStart (s : string) : string :=
  match s with
  | EmptyString => EmptyString
  | String c s' => if is_whitespace c then trimStart s' else s
  end.

Definition trim (s : string) : string :=
  String.rev (trimStart (String.rev (trimStart s))).

(** [path.extname], the loop of Node's posix implementation: the state
    after the characters from the end of the path down to index [i]. *)
Record extname_state := ExtnameState {
  startDot : Z;
  startPart : Z;
  end_ : Z;
  matchedSlash : bool;
  preDotState : Z;
  broke : bool
}.

Definition extname_step (st : extname_state) (ic : nat * ascii)
  : extname_state :=
  if broke st then st
  else
    let i := Z.of_nat ic.1 in
    if decide (ic.2 = "/"%char)
    then
      if negb (matchedSlash st)
      then ExtnameState (startDot st) (i + 1) (end_ st) (matchedSlash st)
             (preDotState st) true
      else st
    else
      let st :=
        if decide (end_ st = -1)%Z
        then ExtnameState (startDot st) (startPart st) (i + 1) false
               (preDotState st) false
        else st in
      if decide (ic.2 = "."%char)
      then
        if decide (startDot st = -1)%Z
        then ExtnameState i (startPart st) (end_ st) (matchedSlash st)
               (preDotState st) false
        else if decide (preDotState st ≠ 1)%Z
             then ExtnameState (startDot st) (startPart st) (end_ st)
                    (matchedSlash st) 1 false
             else st
      else
        if decide (startDot st ≠ -1)%Z
        then ExtnameState (startDot st) (startPart st) (end_ st)
               (matchedSlash st) (-1) false
        else st.

Definition extname (p : string) : string :=
  let st :=
    foldl extname_step (ExtnameState (-1) 0 (-1) true 0 false)
      (reverse (imap pair (list_ascii_of_string p))) in
  if bool_decide (startDot st = -1)%Z
     || bool_decide (end_ st = -1)%Z
     || bool_decide (preDotState st = 0)%Z
     || (bool_decide (preDotState st = 1)%Z
         && bool_decide (startDot st = end_ st - 1)%Z
         && bool_decide (startDot st = startPart st + 1)%Z)
  then EmptyString
  else substring (Z.to_nat (startDot st))
         (Z.to_nat (end_ st - startDot st)) p.

(** [s.match(/page-(\d+)\.json/)?.[1]]: the digits of the leftmost place
    where [page-], one or more digits and [.json] follow each other. *)
Definition is_digit (c : ascii) : bool :=
  let n := nat_of_ascii c in bool_decide (48 ≤ n ≤ 57)%nat.

Fixpoint span_digits (s : string) : string * string :=
  match s with
  | EmptyString => (EmptyString, EmptyString)
  | String c s' =>
      if is_digit c
      then let dr := span_digits s' in (String c dr.1, dr.2)
      else (EmptyString, s)
  end.

Fixpoint strip_prefix (p s : string) : option string :=
  match p, s with
  | EmptyString, _ => Some s
  | String a p', String b s' =>
      if decide (a = b) then strip_prefix p' s' else None
  | String _ _, EmptyString => None
  end.

Definition match_page_json_here (s : string) : option string :=
  match strip_prefix "page-" s with
  | None => None
  | Some rest =>
      let dr := span_digits rest in
      match dr.1, strip_prefix ".json" dr.2 with
      | String _ _, Some _ => Some dr.1
      | _, _ => None
      end
  end.

Fixpoint match_page_json (s : string) : option string :=
  match match_page_json_here s with
  | Some d => Some d
  | None =>
      match s with
      | EmptyString => None
      | String _ s' => match_page_json s'
      end
  end.

(** ** Sessions and the password *)

(** [crypto.pbkdf2Sync(password, salt, 10000, 64, 'sha512').toString('hex')] *)
Class Crypto := { pbkdf2Sync : string → string → string }.

Record auth_file := AuthFile { salt : string; hash : string }.

(** [auth.json], absent until a password is set, and the session map. *)
Record auth_state := AuthState {
  AUTH_FILE : option auth_file;
  sessions : gmap string Z
}.

Definition SESSION_DURATION : Z := 7 * 24 * 60 * 60 * 1000.

(** An error of the file system that reaches the [catch] of a handler. *)
Inductive fs_exn := ENOENT.

(** What an authentication route does: it sends a response, or its [catch]
    branch sends status 500 with the message of a file-system error. *)
Inductive outcome (A : Type) :=
  | Sent (r : response A)
  | Caught (e : fs_exn).
Arguments Sent {A} _.
Arguments Caught {A} _.

Section Auth.
Context `{CR : Crypto}.

Definition isPasswordSet (a : auth_state) : bool :=
  bool_decide (is_Some (AUTH_FILE a)).

(** Lines 33-41; [salt] is the value of [crypto.randomBytes(16)]. *)
Definition setInitialPassword (salt0 password : string) (a : auth_state)
  : bool * auth_state :=
  if isPasswordSet a then (false, a)
  else (true,
        {| AUTH_FILE := Some (AuthFile salt0 (pbkdf2Sync password salt0));
           sessions := sessions a |}).

(** Lines 43-47; reading a missing [auth.json] throws. *)
Definition verifyPassword (password : string) (a : auth_state) : option bool :=
  match AUTH_FILE a with
  | None => None
  | Some auth =>
      Some (bool_decide (pbkdf2Sync password (salt auth) = hash auth))
  end.

(** Lines 49-53; [token] is the value of [crypto.randomBytes(32)], [now]
    that of [Date.now()]. *)
Definition createSession (token : string) (now : Z) (a : auth_state)
  : string * auth_state :=
  (token, {| AUTH_FILE := AUTH_FILE a;
             sessions := <[token := now]> (sessions a) |}).

(** Lines 55-64. *)
Definition isValidSession (token : option string) (now : Z) (a : auth_state)
  : bool * auth_state :=
  if negb (truthy token) then (false, a)
  else
    let tok := default EmptyString token in
    match sessions a !! tok with
    | None => (false, a)
    | Some created =>
        if bool_decide (now - created > SESSION_DURATION)%Z
        then (false, {| AUTH_FILE := AUTH_FILE a;
                        sessions := delete tok (sessions a) |})
        else (true, a)
    end.

(** Lines 67-73: the token of the header, or else of the query string. *)
Definition requireAuth (header query : option string) (now : Z)
    (a : auth_state) : bool * auth_state :=
  isValidSession (if truthy header then header else query) now a.

(** GET /api/auth/status *)
Definition auth_status (a : auth_state) : response bool :=
  Reply (isPasswordSet a).

(** POST /api/auth/setup *)
Definition auth_setup (salt0 : string) (a : auth_state)
    (password : option string) : response () * auth_state :=
  if negb (truthy password) then (Status 400 "Password required", a)
  else
    let pw := default EmptyString password in
    if bool_decide (String.length pw < 4)%nat
    then (Status 400 "Password must be at least 4 characters", a)
    else if isPasswordSet a then (Status 400 "Password already set", a)
    else (Reply (), (setInitialPassword salt0 pw a).2).

(** POST /api/auth/login *)
Definition auth_login (token : string) (now : Z) (a : auth_state)
    (password : option string) : outcome string * auth_state :=
  if negb (truthy password) then (Sent (Status 400 "Password required"), a)
  else if negb (isPasswordSet a)
  then (Sent (Status 400 "Password not set up yet"), a)
  else
    match verifyPassword (default EmptyString password) a with
    | None => (Caught ENOENT, a)
    | Some true =>
        let ta := createSession token now a in (Sent (Reply ta.1), ta.2)
    | Some false => (Sent (Status 401 "Invalid password"), a)
    end.

(** GET /api/auth/check *)
Definition auth_check (header : option string) (now : Z) (a : auth_state)
  : response bool * auth_state :=
  let va := isValidSession header now a in (Reply va.1, va.2).

(** POST /api/auth/logout *)
Definition auth_logout (header : option string) (a : auth_state)
  : response () * auth_state :=
  (Reply (),
   if truthy header
   then {| AUTH_FILE := AUTH_FILE a;
           sessions := delete (default EmptyString header) (sessions a) |}
   else a).

(** POST /api/auth/change-password, behind [requireAuth]. *)
Definition auth_change_password (header query : option string) (now : Z)
    (salt0 : string) (a : auth_state)
    (currentPassword newPassword : option string)
  : outcome () * auth_state :=
  let va := requireAuth header query now a in
  if negb va.1 then (Sent (Status 401 "Unauthorized"), va.2)
  else
    let a := va.2 in
    if negb (truthy currentPassword) || negb (truthy newPassword)
    then (Sent (Status 400 "Current and new password required"), a)
    else
      let new := default EmptyString newPassword in
      match verifyPassword (default EmptyString currentPassword) a with
      | None => (Caught ENOENT, a)
      | Some false => (Sent (Status 401 "Current password is incorrect"), a)
      | Some true =>
          if bool_decide (String.length new < 6)%nat
          then (Sent (Status 400 "New password must be at least 6 characters"),
                a)
          else (Sent (Reply ()),
                {| AUTH_FILE := Some (AuthFile salt0 (pbkdf2Sync new salt0));
                   sessions := sessions a |})
      end.

End Auth.

(** ** Favourites: the routes on the list of [favorites.json] *)

(** POST /api/favorites *)
Definition add_favorite (favorites : list string) (fileName : option string)
  : response (list string) * list string :=
  if negb (truthy fileName) then (Status 400 "fileName required", favorites)
  else
    let f := default EmptyString fileName in
    let favorites :=
      if bool_decide (f ∈ favorites) then favorites
      else (favorites ++ [f])%list in
    (Reply favorites, favorites).

(** DELETE /api/favorites/:fileName *)
Definition remove_favorite (favorites : list string) (decodedFileName : string)
  : response (list string) * list string :=
  let favorites := filter (λ f, f ≠ decodedFileName) favorites in
  (Reply favorites, favorites).

(** The body of a successful rename. *)
Record renamed := Renamed {
  ren_oldName : string;
  ren_newName : string;
  ren_path : string
}.

Section Routes.
Context `{RT : Runtime}.

Local Abbreviation entry := (zip_entry blob).

Definition with_shelves (st : server) (l : list shelf) : server :=
  {| library := library st; annotations := annotations st; shelves := l |}.

Definition with_annotations (st : server)
    (a : gmap string (gmap string (list stroke))) : server :=
  {| library := library st; annotations := a; shelves := shelves st |}.

(** ** Shelves *)

(** POST /api/shelves; [now] is the value of [Date.now()]. *)
Definition create_shelf (now : N) (st : server) (name0 : option string)
  : response shelf * server :=
  let newShelf :=
    {| id := "shelf-" +:+ pretty now;
       shelf_name :=
         if truthy name0 then default EmptyString name0 else "New Shelf";
       files := [] |} in
  (Reply newShelf, with_shelves st (shelves st ++ [newShelf])%list).

(** PUT /api/shelves/:id; an absent field of the body leaves that field
    of the shelf as it is. *)
Definition put_shelf (st : server) (id0 : string) (name0 : option string)
    (files0 : option (list string)) : response shelf * server :=
  match list_find (λ s, id s = id0) (shelves st) with
  | None => (Status 404 "Shelf not found", st)
  | Some (i, s) =>
      let s' := {| id := id s; shelf_name := default (shelf_name s) name0;
                   files := default (files s) files0 |} in
      (Reply s', with_shelves st (<[i := s']> (shelves st)))
  end.

(** DELETE /api/shelves/:id *)
Definition delete_shelf (st : server) (id0 : string) : response () * server :=
  (Reply (), with_shelves st (filter (λ s, id s ≠ id0) (shelves st))).

(** POST /api/shelves/:id/files *)
Definition add_file_to_shelf (st : server) (id0 fileName : string)
  : response shelf * server :=
  match list_find (λ s, id s = id0) (shelves st) with
  | None => (Status 404 "Shelf not found", st)
  | Some (i, s) =>
      if bool_decide (fileName ∈ files s) then (Reply s, st)
      else
        let s' := {| id := id s; shelf_name := shelf_name s;
                     files := (files s ++ [fileName])%list |} in
        (Reply s', with_shelves st (<[i := s']> (shelves st)))
  end.

(** DELETE /api/shelves/:id/files/:fileName *)
Definition remove_file_from_shelf (st : server) (id0 decodedFileName : string)
  : response shelf * server :=
  match list_find (λ s, id s = id0) (shelves st) with
  | None => (Status 404 "Shelf not found", st)
  | Some (i, s) =>
      let s' := {| id := id s; shelf_name := shelf_name s;
                   files := filter (λ f, f ≠ decodedFileName) (files s) |} in
      (Reply s', with_shelves st (<[i := s']> (shelves st)))
  end.

(** ** The overlay store of the PDFs *)

(** GET /api/annotations/:fileName *)
Definition get_pdf_annotations (st : server) (decodedFileName : string)
  : response (gmap string (list stroke)) :=
  Reply (default ∅ (annotations st !! decodedFileName)).

(** PUT /api/annotations/:fileName/:pageNumber.  The store and its
    entries are the maps of their own keys: this is the code for a file
    name and a page number that are an [own_key]. *)
Definition put_pdf_annotations (st : server)
    (decodedFileName pageNumber : string) (strokes : option (list stroke))
  : response () * server :=
  let fileAnnotations := default ∅ (annotations st !! decodedFileName) in
  (Reply (),
   with_annotations st
     (if nonempty strokes
      then <[decodedFileName :=
               <[pageNumber := default [] strokes]> fileAnnotations]>
             (annotations st)
      else
        let fileAnnotations := delete pageNumber fileAnnotations in
        if bool_decide (fileAnnotations = ∅)
        then delete decodedFileName (annotations st)
        else <[decodedFileName := fileAnnotations]> (annotations st))).

(** GET /api/annotations: the names under which the store has an entry
    (as a set; the order of [Object.keys] is not kept). *)
Definition list_annotated (st : server) : response (gset string) :=
  Reply (dom (annotations st)).

(** DELETE /api/annotations/:fileName *)
Definition delete_pdf_annotations (st : server) (decodedFileName : string)
  : response () * server :=
  (Reply (), with_annotations st (delete decodedFileName (annotations st))).

(** ** Renaming a file *)

(** Lines 293-299. *)
Definition final_name (decodedFileName newName : string) : string :=
  let ext := toLowerCase (extname decodedFileName) in
  let finalNewName := trim newName in
  if endsWith (toLowerCase finalNewName) ext
  then finalNewName
  else finalNewName +:+ ext.

(** PUT /api/files/:fileName/rename.  The library is keyed by file name,
    and the file is moved to the final name as written: this is the code
    for a final name that is a [plain_name], where
    [path.join(LIBRARY_PATH, finalNewName)] is a file of the library
    directory and [fs.renameSync] has a directory to rename into. *)
Definition rename_file (st : server) (decodedFileName : string)
    (newName : option string) : response renamed * server :=
  if negb (truthy newName)
     || negb (truthy (Some (trim (default EmptyString newName))))
  then (Status 400 "New name is required", st)
  else
    let ext := toLowerCase (extname decodedFileName) in
    let finalNewName :=
      final_name decodedFileName (default EmptyString newName) in
    match library st !! decodedFileName with
    | None => (Status 404 "File not found", st)
    | Some content =>
      if bool_decide (is_Some (library st !! finalNewName))
         && bool_decide (decodedFileName ≠ finalNewName)
      then (Status 400 "A file with that name already exists", st)
      else
        (Reply {| ren_oldName := decodedFileName;
                  ren_newName := finalNewName;
                  ren_path :=
                    "/library/" +:+ encodeURIComponent finalNewName |},
         {| library :=
              <[finalNewName := content]>
                (delete decodedFileName (library st));
            annotations :=
              if bool_decide (ext = ".pdf")
              then
                match annotations st !! decodedFileName with
                | Some a =>
                    delete decodedFileName
                      (<[finalNewName := a]> (annotations st))
                | None => annotations st
                end
              else annotations st;
            shelves :=
              update_shelf decodedFileName finalNewName <$> shelves st |})
    end.

(** ** The remaining container reads *)

(** GET /api/regalpaket/:fileName/annotations *)
Definition get_all_annotations (st : server) (decodedFileName : string)
  : response (gmap string (list stroke)) :=
  match library st !! decodedFileName with
  | None => Status 404 "Regalpaket not found"
  | Some b =>
    match unzipper_open b with
    | None => Status500 ZipError
    | Some directory =>
      let annotationFiles :=
        filter (λ f : entry, String.prefix "annotations/" (path f)
                             && endsWith (path f) ".json" = true)
               directory in
      match
        foldl (λ acc (file : entry),
                 acc ≫= λ annotations0,
                   match match_page_json (path file) with
                   | None => Some annotations0
                   | Some pageNum =>
                       (λ s, <[pageNum := s]> annotations0)
                         <$> JSON_parse_strokes (buffer file)
                   end)
              (Some ∅) annotationFiles
      with
      | None => Status500 SyntaxError
      | Some annotations0 => Reply annotations0
      end
    end
  end.

End Routes.


(** A container all of whose files under [annotations/] that end in
    [.json] are named [page-<digits>.json] and hold an overlay. *)
Section Numbered.
Context `{RT : Runtime}.

Definition is_annotation_file (k : string) : bool :=
  String.prefix "annotations/" k && endsWith k ".json".

Definition numbered (t : tempdir) : Prop :=
  ∀ k c, td_files t !! k = Some c → is_annotation_file k = true →
    ∃ d s, k = annotation_path d ∧ match_page_json k = Some d ∧
           JSON_parse_strokes c = Some s.

(** The same, as a test that can be run on a given directory. *)
Definition numbered_file (k : string) (c : blob) : bool :=
  negb (is_annotation_file k) ||
  match match_page_json k, JSON_parse_strokes c with
  | Some d, Some _ => bool_decide (k = annotation_path d)
  | _, _ => false
  end.

Definition numbered_check (t : tempdir) : bool :=
  forallb (λ pc, numbered_file pc.1 pc.2) (map_to_list (td_files t)).

Definition built_container (st : server) (f : string) : Prop :=
  ∃ t, library st !! f = Some (archiver_zip (archive_directory t)) ∧
       numbered t.

(** An overlay store without empty entries: every file it names has a
    page, and every page it names has a stroke. *)
Definition clean_store (a : gmap string (gmap string (list stroke))) : Prop :=
  ∀ f m, a !! f = Some m →
    m ≠ ∅ ∧ ∀ p s, m !! p = Some s → s ≠ [].

End Numbered.

(** ** Data for the examples of the other routes *)
Module Fixtures.
Import Reference.

(** A stand-in for the key derivation. *)
#[export] Instance crypto : Crypto :=
  {| pbkdf2Sync := λ password salt0, salt0 +:+ "$" +:+ password |}.

Definition auth0 : auth_state := AuthState None ∅.

(** A password is set and one session, created at time 1000, is open. *)
Definition auth1 : auth_state :=
  AuthState (Some (AuthFile "5a17" (pbkdf2Sync "secret" "5a17")))
            {[ "c0ffee" := 1000%Z ]}.

Definition st_shelves : server :=
  {| library := {[ "song.pdf" := Bytes "abc"; "tune.pdf" := Bytes "de" ]};
     annotations := {[ "song.pdf" := {[ "2" := [pen] ]} ]};
     shelves := [Shelf "shelf-1" "Etudes" ["intro.pdf"; "song.pdf"];
                 Shelf "shelf-2" "Duets" []] |}.

End Fixtures.


(** * Properties *)

(** ** Paths *)

Lemma string_last_app s t :
  t ≠ EmptyString → string_last (s +:+ t) = string_last t.
Proof.
  intros Ht. induction s as [|c s IH]; [done|].
  rewrite <- IH. change (String c s +:+ t) with (String c (s +:+ t)).
  destruct (s +:+ t) eqn:E; [|done].
  destruct s; [change (t = EmptyString) in E; congruence|discriminate].
Qed.

Lemma string_last_app_Some s t c :
  string_last t = Some c → string_last (s +:+ t) = Some c.
Proof. intros H. rewrite string_last_app; [done|]. by intros ->. Qed.

Lemma string_length_app s t :
  String.length (s +:+ t) = (String.length s + String.length t)%nat.
Proof.
  induction s as [|c s IH]; [done|].
  change (S (String.length (s +:+ t)) = S (String.length s + String.length t)).
  by rewrite IH.
Qed.

Lemma string_app_inj_r s1 s2 t : s1 +:+ t = s2 +:+ t → s1 = s2.
Proof.
  revert s2. induction s1 as [|c s1 IH]; intros [|d s2] H.
  - done.
  - apply (f_equal String.length) in H.
    rewrite !string_length_app in H. simpl in H. lia.
  - apply (f_equal String.length) in H.
    rewrite !string_length_app in H. simpl in H. lia.
  - change (String c (s1 +:+ t) = String d (s2 +:+ t)) in H.
    injection H as -> H. f_equal. by apply IH.
Qed.

Lemma annotation_path_inj p q : annotation_path p = annotation_path q → p = q.
Proof.
  unfold annotation_path. intros H.
  apply (inj (String.app _)) in H. by apply string_app_inj_r in H.
Qed.

Lemma page_path_inj p q : page_path p = page_path q → p = q.
Proof.
  unfold page_path, page_file. intros H.
  do 2 apply (inj (String.app _)) in H. by apply string_app_inj_r in H.
Qed.

Global Instance annotation_path_Inj : Inj (=) (=) annotation_path.
Proof. intros p q. apply annotation_path_inj. Qed.

Lemma annotation_path_last p : string_last (annotation_path p) = Some "n"%char.
Proof. unfold annotation_path. by do 2 apply string_last_app_Some. Qed.

Lemma page_path_last p : string_last (page_path p) = Some "g"%char.
Proof. unfold page_path, page_file. by do 3 apply string_last_app_Some. Qed.

Lemma dir_entry_last d : string_last (d +:+ "/") = Some "/"%char.
Proof. by apply string_last_app_Some. Qed.

Lemma annotation_path_not_page p q : annotation_path p ≠ page_path q.
Proof. done. Qed.

Lemma annotation_path_not_manifest p : annotation_path p ≠ "manifest.json".
Proof. done. Qed.

Lemma annotation_path_not_original p : annotation_path p ≠ "original.pdf".
Proof. done. Qed.

Lemma page_path_not_manifest p : page_path p ≠ "manifest.json".
Proof. done. Qed.

Lemma page_path_not_original p : page_path p ≠ "original.pdf".
Proof. done. Qed.

Section Properties.
Context `{RT : Runtime}.

Local Abbreviation entry := (zip_entry blob).

Implicit Types (st : server) (t : tempdir) (es : list entry)
  (p q f : string) (strokes : option (list stroke)).

(** ** Looking an entry up in an archive *)

Lemma find_path_None p es :
  find_path p es = None ↔ ∀ e, e ∈ es → path e ≠ p.
Proof.
  unfold find_path. rewrite fmap_None, list_find_None, Forall_forall.
  done.
Qed.

Lemma find_path_Some p es e :
  find_path p es = Some e → e ∈ es ∧ path e = p.
Proof.
  unfold find_path. intros ([i e'] & Hfind & ->)%fmap_Some.
  apply list_find_Some in Hfind as (Hi & Hp & _).
  split; [by eapply list_elem_of_lookup_2|done].
Qed.

Lemma find_path_app_r p es1 es2 :
  (∀ e, e ∈ es1 → path e ≠ p) →
  find_path p (es1 ++ es2) = find_path p es2.
Proof.
  intros H. unfold find_path. rewrite list_find_app_r.
  - by destruct (list_find _ es2) as [[??]|].
  - by apply list_find_None, Forall_forall.
Qed.

(** A page or annotation entry is found in a rebuilt archive exactly when
    the scratch directory holds a file under that path. *)
Lemma find_path_archive p t :
  string_last p ≠ Some "/"%char →
  find_path p (archive_directory t)
  = ZipEntry p File <$> td_files t !! p.
Proof.
  intros Hlast. unfold archive_directory. rewrite find_path_app_r.
  2:{ intros e (d & -> & _)%list_elem_of_fmap Hp. simpl in Hp.
      subst p. by rewrite dir_entry_last in Hlast. }
  destruct (td_files t !! p) as [c|] eqn:Hp; simpl.
  - destruct (find_path p (_ <$> map_to_list (td_files t))) as [e|] eqn:Hf.
    + apply find_path_Some in Hf as [([q c'] & -> & Hin)%list_elem_of_fmap Hq].
      simpl in Hq. subst q. apply elem_of_map_to_list in Hin.
      simpl. congruence.
    + rewrite find_path_None in Hf.
      destruct (Hf (ZipEntry p File c)); [|done].
      apply list_elem_of_fmap. exists (p, c). split; [done|].
      by apply elem_of_map_to_list.
  - apply find_path_None.
    intros e ([q c'] & -> & Hin)%list_elem_of_fmap Hq. simpl in Hq. subst q.
    apply elem_of_map_to_list in Hin. congruence.
Qed.

(** ** Extraction of a rebuilt archive gives the files back *)

Lemma td_files_mkdirs ds t : td_files (foldr mkdirSync t ds) = td_files t.
Proof. induction ds as [|d ds IH]; [done|]. simpl. exact IH. Qed.

Lemma extract_directories t0 (ds : list string) :
  foldl extract_entry t0
    ((λ d, ZipEntry (d +:+ "/") Directory empty_file) <$> ds) = t0.
Proof. induction ds as [|d ds IH]; [done|]. simpl. exact IH. Qed.

Lemma extract_files t0 (l : list (string * blob)) :
  NoDup l.*1 →
  td_files (foldl extract_entry t0 ((λ pc, ZipEntry pc.1 File pc.2) <$> l))
  = list_to_map l ∪ td_files t0.
Proof.
  revert t0. induction l as [|[k v] l IH]; intros t0 Hnd.
  - simpl. by rewrite (left_id_L ∅ (∪)).
  - apply NoDup_cons in Hnd as [Hk Hnd]. simpl.
    rewrite IH by done. unfold extract_entry at 1. simpl.
    rewrite td_files_mkdirs.
    rewrite <- insert_union_r by by apply not_elem_of_list_to_map_1.
    by rewrite insert_union_l.
Qed.

Lemma extract_archive t0 t :
  td_files (foldl extract_entry t0 (archive_directory t))
  = td_files t ∪ td_files t0.
Proof.
  unfold archive_directory. rewrite foldl_app, extract_directories.
  rewrite extract_files by apply NoDup_fst_map_to_list.
  by rewrite list_to_map_to_list.
Qed.

Lemma extract_archive_fresh t :
  td_files (foldl extract_entry fresh_tempdir (archive_directory t))
  = td_files t.
Proof. rewrite extract_archive. simpl. by rewrite (right_id_L ∅ (∪)). Qed.

(** ** Reading from a rebuilt archive *)

Lemma get_annotations_archive st f t p :
  library st !! f = Some (archiver_zip (archive_directory t)) →
  get_annotations st f p
  = match td_files t !! annotation_path p with
    | None => Reply []
    | Some c =>
        match JSON_parse_strokes c with
        | None => Status500 SyntaxError
        | Some s => Reply s
        end
    end.
Proof.
  intros Hf. unfold get_annotations. rewrite Hf, zip_roundtrip.
  rewrite find_path_archive by by rewrite annotation_path_last.
  by destruct (td_files t !! annotation_path p).
Qed.

Lemma get_page_archive st f t p :
  library st !! f = Some (archiver_zip (archive_directory t)) →
  get_page st f p
  = match td_files t !! page_path p with
    | None => Status 404 "Page not found"
    | Some c => Reply c
    end.
Proof.
  intros Hf. unfold get_page. rewrite Hf, zip_roundtrip.
  rewrite find_path_archive by by rewrite page_path_last.
  by destruct (td_files t !! page_path p).
Qed.

Lemma get_manifest_archive st f t :
  library st !! f = Some (archiver_zip (archive_directory t)) →
  get_manifest st f
  = match td_files t !! "manifest.json" with
    | None => Status 400 "Invalid Regalpaket: no manifest found"
    | Some c =>
        match JSON_parse_manifest c with
        | None => Status500 SyntaxError
        | Some m => Reply m
        end
    end.
Proof.
  intros Hf. unfold get_manifest. rewrite Hf, zip_roundtrip.
  rewrite find_path_archive by done.
  by destruct (td_files t !! "manifest.json").
Qed.

(** ** The annotation write, run to its end *)

Lemma nonempty_false strokes :
  nonempty strokes = false ↔ strokes = None ∨ strokes = Some [].
Proof.
  destruct strokes as [[|s l]|]; simpl.
  - split; [by right|done].
  - split; [done|by intros [|]].
  - split; [by left|done].
Qed.

Lemma nonempty_true strokes :
  nonempty strokes = true ↔ ∃ s l, strokes = Some (s :: l).
Proof.
  destruct strokes as [[|s l]|]; simpl.
  - split; [done|by intros (?&?&?)].
  - split; [by exists s, l|done].
  - split; [done|by intros (?&?&?)].
Qed.

Lemma update_annotation_lookup p strokes t :
  td_files (update_annotation p strokes t) !! annotation_path p
  = if nonempty strokes
    then Some (JSON_stringify_strokes (default [] strokes))
    else None.
Proof.
  unfold update_annotation, existsSync.
  destruct (nonempty strokes); simpl.
  - by rewrite lookup_insert_eq.
  - case_bool_decide as Hex; simpl.
    + by rewrite lookup_delete_eq.
    + by apply eq_None_not_Some.
Qed.

Lemma update_annotation_other p strokes t q :
  q ≠ annotation_path p →
  td_files (update_annotation p strokes t) !! q = td_files t !! q.
Proof.
  intros Hq. unfold update_annotation, existsSync.
  destruct (nonempty strokes); simpl.
  - by rewrite lookup_insert_ne.
  - case_bool_decide; simpl; [by rewrite lookup_delete_ne|done].
Qed.

Lemma put_annotations_ok st f b directory p strokes :
  library st !! f = Some b →
  unzipper_open b = Some directory →
  put_annotations st f p strokes
  = (Reply (),
     {| library :=
          <[f := archiver_zip (archive_directory (rebuilt directory p strokes))]>
            (library st);
        annotations := annotations st;
        shelves := shelves st |}).
Proof.
  intros Hf Hb. unfold put_annotations. rewrite Hf, Hb.
  by rewrite insert_insert_eq.
Qed.

Lemma put_annotations_failed st f p strokes r st' :
  put_annotations st f p strokes = (r, st') →
  r ≠ Reply () → st' = st.
Proof.
  unfold put_annotations.
  destruct (library st !! f) as [b|]; [|by intros [= <- <-]].
  destruct (unzipper_open b); [|by intros [= <- <-]].
  by intros [= <- <-].
Qed.

(** ** The annotation write, effect by effect *)

Lemma put_run_add a n r lib c :
  put_run (a + n) r lib c
  = let '(lib', c') := put_run a r lib c in put_run n r lib' c'.
Proof.
  revert lib c. induction a as [|a IH]; intros lib c; [done|].
  simpl. destruct (put_step r lib c) as [lib' c']. apply IH.
Qed.

Lemma put_run_S n r lib c :
  put_run (S n) r lib c
  = put_run n r (put_step r lib c).1 (put_step r lib c).2.
Proof. simpl. by destruct (put_step r lib c). Qed.

Lemma put_run_Done n r lib resp t :
  put_run n r lib (PutProc (Done resp) t) = (lib, PutProc (Done resp) t).
Proof. induction n as [|n IH]; [done|]. simpl. exact IH. Qed.

Lemma put_run_extract r lib pending t :
  put_run (length pending) r lib (PutProc (AtExtract pending) t)
  = (lib, PutProc (AtExtract []) (foldl extract_entry t pending)).
Proof.
  revert t. induction pending as [|e pending IH]; intros t; [done|].
  simpl. apply IH.
Qed.

Lemma put_step_after_write r lib c :
  before_write (pc c) = false →
  before_write (pc (put_step r lib c).2) = false.
Proof. by destruct c as [[| | | | | | | | |[]] ?]. Qed.

Lemma put_step_before_write r lib c :
  before_write (pc c) = true →
  pc c ≠ AtCreateWriteStream →
  (put_step r lib c).1 = lib.
Proof.
  destruct c as [[| | |[|??]| | | | | |[]] ?]; unfold put_step; simpl;
    try done.
  - by destruct (lib !! req_fileName r).
  - by destruct (lib !! req_fileName r ≫= unzipper_open).
Qed.

Lemma put_run_after_write n r lib c :
  before_write (pc c) = false →
  before_write (pc (put_run n r lib c).2) = false.
Proof.
  revert lib c. induction n as [|n IH]; intros lib c Hc; [done|].
  simpl. pose proof (put_step_after_write r lib c Hc) as Hc'.
  destruct (put_step r lib c) as [lib' c']. by apply IH.
Qed.

Lemma put_run_before_write n r lib c :
  before_write (pc (put_run n r lib c).2) = true →
  (put_run n r lib c).1 = lib.
Proof.
  revert lib c. induction n as [|n IH]; intros lib c; [done|].
  simpl. intros Hend.
  destruct (before_write (pc c)) eqn:Hc.
  - assert (pc c = AtCreateWriteStream ∨ pc c ≠ AtCreateWriteStream)
      as [Hcws|Hcws] by (destruct (pc c); auto).
    + destruct c as [c t]. simpl in Hcws. subst c. simpl in *.
      by rewrite put_run_after_write in Hend.
    + pose proof (put_step_before_write r lib c Hc Hcws) as Hlib.
      destruct (put_step r lib c) as [lib' c']. simpl in Hlib. subst lib'.
      by apply IH.
  - pose proof (put_step_after_write r lib c Hc) as Hc'.
    destruct (put_step r lib c) as [lib' c'].
    by rewrite put_run_after_write in Hend.
Qed.

(** The scratch directory is there from its creation to the clean-up. *)
Lemma td_dirs_mkdirs (l : list string) t d :
  d ∈ td_dirs t → d ∈ td_dirs (foldr mkdirSync t l).
Proof.
  intros Hd. induction l as [|x l IH]; [done|].
  simpl. apply elem_of_union. by right.
Qed.

Lemma td_dirs_extract t (e : zip_entry blob) d :
  d ∈ td_dirs t → d ∈ td_dirs (extract_entry t e).
Proof.
  intros Hd. unfold extract_entry. destruct (type e); [|done].
  simpl. by apply td_dirs_mkdirs.
Qed.

Lemma td_dirs_update p strokes t :
  td_dirs (update_annotation p strokes t) = td_dirs t.
Proof.
  unfold update_annotation. destruct (nonempty strokes); [done|].
  by destruct (existsSync _ t).
Qed.

Lemma put_step_scratch r lib c :
  scratch_there c → scratch_there (put_step r lib c).2.
Proof.
  unfold scratch_there. destruct c as [c t]. unfold put_step. simpl.
  destruct c as [| |directory|[|f rest]| | | | | |resp]; simpl;
    try (intros H; exact H); try done.
  - by destruct (lib !! req_fileName r).
  - by destruct (lib !! req_fileName r ≫= unzipper_open).
  - intros H _. destruct (H eq_refl). split; by apply td_dirs_extract.
  - intros H _. by rewrite td_dirs_update; apply H.
Qed.

Lemma put_run_scratch n r lib c :
  scratch_there c → scratch_there (put_run n r lib c).2.
Proof.
  revert lib c. induction n as [|n IH]; intros lib c Hc; [done|].
  simpl. pose proof (put_step_scratch r lib c Hc) as Hc'.
  destruct (put_step r lib c) as [lib' c']. by apply IH.
Qed.

Lemma put_throw_temp e c : temp (put_throw e c) = temp c.
Proof. unfold put_throw. by destruct (pc c). Qed.

(** Enough effects take the handler to its response, and the result is
    that of [put_annotations]. *)
Local Arguments put_run : simpl never.

Lemma put_run_complete st f p strokes b directory n :
  library st !! f = Some b →
  unzipper_open b = Some directory →
  (length directory + 9 ≤ n)%nat →
  put_run n (PutRequest f p strokes) (library st) put_start
  = (library (put_annotations st f p strokes).2,
     PutProc (Done (put_annotations st f p strokes).1) (TempDir ∅ ∅)).
Proof.
  intros Hf Hb Hn.
  rewrite (put_annotations_ok _ _ _ _ _ _ Hf Hb). simpl.
  replace n with (3 + (length directory + (6 + (n - length directory - 9))))%nat
    by lia.
  change (3 + ?k)%nat with (S (S (S k))).
  rewrite put_run_S. unfold put_step at 1 2. simpl. rewrite Hf. simpl.
  rewrite put_run_S. unfold put_step at 1 2. simpl. rewrite Hf. simpl.
  rewrite Hb. simpl.
  rewrite put_run_S. unfold put_step at 1 2. simpl.
  rewrite put_run_add, put_run_extract.
  change (6 + ?k)%nat with (S (S (S (S (S (S k)))))).
  do 6 (rewrite put_run_S; unfold put_step at 1 2; simpl).
  by rewrite put_run_Done, insert_insert_eq.
Qed.

(** ** The scratch directory of a conversion *)

Lemma write_pages_count images n pd t :
  (write_pages images n pd t).1.1 = (n + N.of_nat (length images))%N.
Proof.
  revert n pd t. induction images as [|image rest IH]; intros n pd t; simpl.
  - lia.
  - rewrite IH. lia.
Qed.

Lemma write_pages_other images n pd t q :
  (∀ i, (i < length images)%nat →
        q ≠ page_path (pretty (n + N.of_nat i + 1)%N)) →
  td_files (write_pages images n pd t).2 !! q = td_files t !! q.
Proof.
  revert n pd t. induction images as [|image rest IH]; intros n pd t Hq;
    [done|].
  simpl. rewrite IH.
  - simpl. rewrite lookup_insert_ne; [done|].
    intros Heq. apply (Hq 0%nat); [simpl; lia|].
    rewrite <- Heq. do 2 f_equal. lia.
  - intros i Hi Heq. apply (Hq (S i)); [simpl; lia|].
    rewrite Heq. do 2 f_equal. lia.
Qed.

Lemma write_pages_lookup images n pd t i image :
  images !! i = Some image →
  td_files (write_pages images n pd t).2
    !! page_path (pretty (n + N.of_nat i + 1)%N) = Some image.
Proof.
  revert n pd t i. induction images as [|image0 rest IH];
    intros n pd t i Hi; [done|].
  destruct i as [|i]; simpl in Hi.
  - injection Hi as ->. simpl. rewrite write_pages_other.
    + simpl. replace (n + N.of_nat 0 + 1)%N with (n + 1)%N by lia.
      by rewrite lookup_insert_eq.
    + intros j _ Heq. apply page_path_inj, (inj pretty) in Heq. lia.
  - simpl.
    replace (n + N.of_nat (S i) + 1)%N with (n + 1 + N.of_nat i + 1)%N
      by lia.
    by apply IH.
Qed.

Lemma write_pages_not_page images n pd t q :
  (∀ p, q ≠ page_path p) →
  td_files (write_pages images n pd t).2 !! q = td_files t !! q.
Proof. intros Hq. apply write_pages_other. intros i _. apply Hq. Qed.

Lemma write_annotations_files (prior : gmap string (list stroke)) t :
  td_files (write_annotations prior t)
  = kmap annotation_path (JSON_stringify_strokes <$> prior) ∪ td_files t.
Proof.
  unfold write_annotations.
  apply (map_fold_weak_ind (λ r (m : gmap string (list stroke)),
    td_files r = kmap annotation_path (JSON_stringify_strokes <$> m)
                 ∪ td_files t)).
  - by rewrite fmap_empty, kmap_empty, (left_id_L ∅ (∪)).
  - intros k x m r _ IH. simpl. rewrite IH.
    by rewrite fmap_insert, (kmap_insert annotation_path), insert_union_l.
Qed.

Lemma write_annotations_lookup (prior : gmap string (list stroke)) t k :
  td_files t !! annotation_path k = None →
  td_files (write_annotations prior t) !! annotation_path k
  = JSON_stringify_strokes <$> prior !! k.
Proof.
  intros Ht. rewrite write_annotations_files, lookup_union, Ht.
  rewrite (lookup_kmap annotation_path), lookup_fmap.
  by destruct (prior !! k).
Qed.

Lemma write_annotations_not_annotation (prior : gmap string (list stroke))
    t q :
  (∀ k, q ≠ annotation_path k) →
  td_files (write_annotations prior t) !! q = td_files t !! q.
Proof.
  intros Hq. rewrite write_annotations_files, lookup_union.
  rewrite (proj2 (lookup_kmap_None annotation_path _ q)).
  - by destruct (td_files t !! q).
  - intros k ->. by destruct (Hq k).
Qed.

Lemma convert_ok now st F pdfFile images :
  endsWith (toLowerCase F) ".pdf" = true →
  library st !! F = Some pdfFile →
  pdf pdfFile = Some images →
  convert now st F
  = (Reply {| conv_name := regal_name F;
             conv_path := "/library/" +:+ encodeURIComponent (regal_name F);
             conv_pageCount := N.of_nat (length images) |},
     {| library :=
          <[regal_name F :=
              archiver_zip (archive_directory
                (converted_dir now F pdfFile images
                   (default ∅ (annotations st !! F))))]> (library st);
        annotations := delete F (annotations st);
        shelves := update_shelf F (regal_name F) <$> shelves st |}).
Proof.
  intros Hext Hf Hpdf. unfold convert, converted_dir.
  rewrite Hext, Hf, Hpdf. simpl.
  pose proof (write_pages_count images 0 [] fresh_tempdir) as Hn.
  destruct (write_pages images 0 [] fresh_tempdir) as [[n pd] t].
  simpl in *. subst n. by rewrite N.add_0_l.
Qed.

Lemma convert_inv now st F body st' :
  convert now st F = (Reply body, st') →
  ∃ pdfFile images,
    endsWith (toLowerCase F) ".pdf" = true ∧
    library st !! F = Some pdfFile ∧
    pdf pdfFile = Some images.
Proof.
  unfold convert.
  destruct (endsWith (toLowerCase F) ".pdf") eqn:Hext; simpl; [|done].
  destruct (library st !! F) as [pdfFile|] eqn:Hf; [|done].
  destruct (pdf pdfFile) as [images|] eqn:Hpdf; [|done].
  intros _. by exists pdfFile, images.
Qed.

Lemma converted_dir_manifest now F pdfFile images prior :
  td_files (converted_dir now F pdfFile images prior) !! "manifest.json"
  = Some (JSON_stringify_manifest
      {| version := 1; name := strip_pdf F; created := now;
         pageCount := N.of_nat (length images);
         originalFile := "original.pdf";
         pages := (write_pages images 0 [] fresh_tempdir).1.2 |}).
Proof.
  unfold converted_dir. simpl. rewrite lookup_insert_eq.
  by rewrite write_pages_count, N.add_0_l.
Qed.

Lemma converted_dir_page now F pdfFile images prior i image :
  images !! i = Some image →
  td_files (converted_dir now F pdfFile images prior)
    !! page_path (pretty (N.of_nat i + 1)%N) = Some image.
Proof.
  intros Hi. unfold converted_dir. simpl.
  rewrite lookup_insert_ne by done. rewrite lookup_insert_ne by done.
  rewrite write_annotations_not_annotation by done.
  by apply (write_pages_lookup images 0).
Qed.

Lemma converted_dir_annotation now F pdfFile images prior k :
  td_files (converted_dir now F pdfFile images prior) !! annotation_path k
  = JSON_stringify_strokes <$> prior !! k.
Proof.
  unfold converted_dir. simpl.
  rewrite lookup_insert_ne by done. rewrite lookup_insert_ne by done.
  apply write_annotations_lookup.
  by rewrite write_pages_not_page by done.
Qed.

(** ** Removing an entry from an archive *)

Lemma find_path_cons p e es :
  find_path p (e :: es)
  = if decide (path e = p) then Some e else find_path p es.
Proof.
  unfold find_path. simpl. case_decide; [done|].
  by destruct (list_find _ es) as [[??]|].
Qed.

Lemma find_path_filter p q es :
  p ≠ q →
  find_path p (filter (λ e, path e ≠ q) es) = find_path p es.
Proof.
  intros Hpq. induction es as [|e es IH]; [done|].
  rewrite filter_cons, (find_path_cons p e es).
  destruct (decide (path e ≠ q)) as [Hq|Hq].
  - rewrite find_path_cons. by rewrite IH.
  - rewrite IH. case_decide; [|done]. destruct Hq. congruence.
Qed.

Lemma find_path_filter_same q es :
  find_path q (filter (λ e, path e ≠ q) es) = None.
Proof.
  apply find_path_None. by intros e [? _]%list_elem_of_filter.
Qed.

Lemma delete_entry_library st f b es q :
  library st !! f = Some b →
  unzipper_open b = Some es →
  library (delete_entry st f q) !! f
  = Some (archiver_zip (filter (λ e, path e ≠ q) es)).
Proof.
  intros Hf Hb. unfold delete_entry. rewrite Hf. simpl. rewrite Hb. simpl.
  by rewrite lookup_insert_eq.
Qed.

(** ** Shelves *)

Lemma replace_first_notin old new (l : list string) :
  old ∉ l → replace_first old new l = l.
Proof.
  intros Hnot. unfold replace_first.
  destruct (list_find _ l) as [[idx x]|] eqn:Hfind; [|done].
  apply list_find_Some in Hfind as (Hidx & -> & _).
  destruct Hnot. by eapply list_elem_of_lookup_2.
Qed.

Lemma replace_first_in old new (l : list string) :
  old ∈ l →
  ∃ idx, l !! idx = Some old ∧
         (∀ j, (j < idx)%nat → l !! j ≠ Some old) ∧
         replace_first old new l = <[idx := new]> l.
Proof.
  intros Hin. unfold replace_first.
  destruct (list_find (λ x, x = old) l) as [[idx x]|] eqn:Hfind.
  - apply list_find_Some in Hfind as (Hidx & -> & Hleast).
    exists idx. split_and!; [done| |done].
    intros j Hj Hl. by eapply Hleast.
  - apply list_find_None in Hfind. rewrite Forall_forall in Hfind.
    by destruct (Hfind old).
Qed.

Lemma replace_first_gone old new (l : list string) :
  NoDup l → old ≠ new → old ∉ replace_first old new l.
Proof.
  intros Hnd Hne.
  destruct (decide (old ∈ l)) as [Hin|Hnot];
    [|by rewrite replace_first_notin].
  destruct (replace_first_in old new l Hin) as (idx & Hidx & _ & ->).
  intros (j & Hj)%list_elem_of_lookup_1.
  destruct (decide (j = idx)) as [->|Hji].
  - rewrite list_lookup_insert_eq in Hj by by eapply lookup_lt_Some.
    congruence.
  - rewrite list_lookup_insert_ne in Hj by done.
    destruct Hji. by eapply NoDup_lookup.
Qed.

Lemma substring_0_length m (s : string) :
  (m ≤ String.length s)%nat → String.length (substring 0 m s) = m.
Proof.
  revert m. induction s as [|c s IH]; intros [|m] Hm; simpl in *;
    try done; try lia.
  rewrite IH; [done|lia].
Qed.

Lemma regal_name_length F :
  (String.length F + 2 ≤ String.length (regal_name F))%nat.
Proof.
  unfold regal_name, strip_pdf, endsWith.
  rewrite string_length_app. simpl.
  destruct (bool_decide (_ ≤ _)%nat) eqn:Hlen; simpl; [|lia].
  apply bool_decide_eq_true in Hlen.
  case_bool_decide; [|lia].
  assert (String.length (toLowerCase F) = String.length F) as Hlow.
  { clear. induction F as [|c F IH]; simpl; congruence. }
  rewrite Hlow in Hlen. simpl in Hlen.
  rewrite substring_0_length by lia. lia.
Qed.

Lemma regal_name_ne F : F ≠ regal_name F.
Proof.
  intros Heq. pose proof (regal_name_length F) as Hlen.
  rewrite <- Heq in Hlen. lia.
Qed.

(** ** Schedules in which one request runs after the other *)

Lemma interleave_app s1 s2 r1 r2 lib c1 c2 :
  interleave (s1 ++ s2) r1 r2 lib c1 c2
  = let '(lib', c1', c2') := interleave s1 r1 r2 lib c1 c2 in
    interleave s2 r1 r2 lib' c1' c2'.
Proof.
  revert lib c1 c2. induction s1 as [|[] s1 IH]; intros lib c1 c2; simpl.
  - done.
  - destruct (put_step r1 lib c1) as [lib' c1']. apply IH.
  - destruct (put_step r2 lib c2) as [lib' c2']. apply IH.
Qed.

Lemma interleave_first n r1 r2 lib c1 c2 :
  interleave (replicate n First) r1 r2 lib c1 c2
  = ((put_run n r1 lib c1).1, (put_run n r1 lib c1).2, c2).
Proof.
  revert lib c1. induction n as [|n IH]; intros lib c1; [done|].
  rewrite put_run_S. simpl.
  destruct (put_step r1 lib c1) as [lib' c1']. apply IH.
Qed.

Lemma interleave_second n r1 r2 lib c1 c2 :
  interleave (replicate n Second) r1 r2 lib c1 c2
  = ((put_run n r2 lib c2).1, c1, (put_run n r2 lib c2).2).
Proof.
  revert lib c2. induction n as [|n IH]; intros lib c2; [done|].
  rewrite put_run_S. simpl.
  destruct (put_step r2 lib c2) as [lib' c2']. apply IH.
Qed.

(** When the first request has run to its response before the second
    starts, the two effect sequences compose to the two handlers run one
    after the other. *)
Lemma interleave_serial st f p1 strokes1 p2 strokes2 b directory n1 n2 :
  library st !! f = Some b →
  unzipper_open b = Some directory →
  (length directory + 9 ≤ n1)%nat →
  (length (archive_directory (rebuilt directory p1 strokes1)) + 9 ≤ n2)%nat →
  let first := put_annotations st f p1 strokes1 in
  let second := put_annotations first.2 f p2 strokes2 in
  interleave (replicate n1 First ++ replicate n2 Second)
    (PutRequest f p1 strokes1) (PutRequest f p2 strokes2)
    (library st) put_start put_start
  = (library second.2,
     PutProc (Done first.1) (TempDir ∅ ∅),
     PutProc (Done second.1) (TempDir ∅ ∅)).
Proof.
  intros Hf Hb Hn1 Hn2 first second.
  rewrite interleave_app, interleave_first.
  rewrite (put_run_complete st f p1 strokes1 b directory n1 Hf Hb Hn1).
  fold first. cbn [fst snd]. rewrite interleave_second. cbn [fst snd].
  rewrite (put_run_complete first.2 f p2 strokes2
             (archiver_zip (archive_directory (rebuilt directory p1 strokes1)))
             (archive_directory (rebuilt directory p1 strokes1)) n2).
  - done.
  - unfold first. rewrite (put_annotations_ok _ _ _ _ _ _ Hf Hb). simpl.
    apply lookup_insert_eq.
  - apply zip_roundtrip.
  - done.
Qed.

(** ** What a save leaves alone

    For a container this server built, a save passes the manifest and every
    page image through unchanged. *)

Lemma rebuilt_other t p strokes q :
  q ≠ annotation_path p →
  td_files (rebuilt (archive_directory t) p strokes) !! q = td_files t !! q.
Proof.
  intros Hq. unfold rebuilt.
  by rewrite update_annotation_other, extract_archive_fresh.
Qed.

Lemma put_annotations_keeps_manifest st f t p strokes :
  library st !! f = Some (archiver_zip (archive_directory t)) →
  get_manifest (put_annotations st f p strokes).2 f = get_manifest st f.
Proof.
  intros Hf.
  rewrite (put_annotations_ok _ _ _ _ _ _ Hf (zip_roundtrip _)). simpl.
  erewrite get_manifest_archive by (simpl; apply lookup_insert_eq).
  rewrite (get_manifest_archive _ _ _ Hf).
  by rewrite rebuilt_other.
Qed.

Lemma put_annotations_keeps_pages st f t p strokes q :
  library st !! f = Some (archiver_zip (archive_directory t)) →
  get_page (put_annotations st f p strokes).2 f q = get_page st f q.
Proof.
  intros Hf.
  rewrite (put_annotations_ok _ _ _ _ _ _ Hf (zip_roundtrip _)). simpl.
  erewrite get_page_archive by (simpl; apply lookup_insert_eq).
  rewrite (get_page_archive _ _ _ _ Hf).
  rewrite rebuilt_other; [done|].
  intros Heq. symmetry in Heq. by apply annotation_path_not_page in Heq.
Qed.

End Properties.

(** * The claims *)

Section Claims.
Context `{RT : Runtime}.

Local Abbreviation entry := (zip_entry blob).

Implicit Types (st : server) (es directory : list entry) (f : string)
  (b : blob) (strokes : option (list stroke)).

(** C1, as the code has it.  The handler rebuilds the archive straight
    onto the container ([fs.createWriteStream(regalPath)]); there is no
    temporary archive and no rename.  Take a save with a decimal page
    number on a container named by a plain file name, whose file entries
    have paths without empty, [.] or [..] segments.  If it ends early,
    killed or by an effect that throws, at a point before the container is
    opened for writing, then every file of the library, the container
    included, holds what it held; but the scratch directory
    [.temp-<timestamp>] that the handler has made inside the library
    directory by then is left there, with its two subdirectories. *)
Theorem C1_unchanged_before_write (n : nat) (how : stop) (r : put_request)
    (lib : gmap string blob) (p : N) :
  plain_name (req_fileName r) = true →
  req_pageNum r = pretty p →
  safe_container lib (req_fileName r) = true →
  before_write (pc (put_run n r lib put_start).2) = true →
  let stopped := put_stopped n how r lib in
  stopped.1 = lib ∧
  (scratch_made (pc (put_run n r lib put_start).2) = true →
   "pages" ∈ td_dirs (temp stopped.2) ∧
   "annotations" ∈ td_dirs (temp stopped.2)).
Proof.
  intros _ _ _ Hbefore. simpl. unfold put_stopped.
  pose proof (put_run_before_write n r lib put_start Hbefore) as Hlib.
  assert (scratch_there (put_run n r lib put_start).2) as Hscratch
    by (by apply put_run_scratch).
  destruct (put_run n r lib put_start) as [lib' c]. simpl in *. subst lib'.
  destruct how as [|e]; simpl; (split; [done|]); [done|].
  rewrite put_throw_temp. apply Hscratch.
Qed.

(** C2.  Converting a PDF that renders to the images [images], with an
    overlay store keyed by page numbers, and then reading the new
    container gives the inputs back: the manifest counts [length images]
    pages, page [i] is the [i]-th rendered image, and the annotations of
    every page are the overlay the store held for it (strokes in their
    order), or [] where it held none. *)
Theorem C2_convert_roundtrip now st F pdfFile images :
  endsWith (toLowerCase F) ".pdf" = true →
  library st !! F = Some pdfFile →
  pdf pdfFile = Some images →
  (∀ k, is_Some (default ∅ (annotations st !! F) !! k) →
        ∃ n : N, k = pretty n) →
  let prior := default ∅ (annotations st !! F) in
  let result := convert now st F in
  (∃ body, result.1 = Reply body ∧ conv_name body = regal_name F ∧
           conv_pageCount body = N.of_nat (length images)) ∧
  (∃ m, get_manifest result.2 (regal_name F) = Reply m ∧
        pageCount m = N.of_nat (length images)) ∧
  (∀ i image, images !! i = Some image →
     get_page result.2 (regal_name F) (pretty (N.of_nat i + 1)%N)
     = Reply image) ∧
  (∀ n : N,
     get_annotations result.2 (regal_name F) (pretty n)
     = Reply (default [] (prior !! pretty n))).
Proof.
  intros Hext Hf Hpdf _. simpl.
  rewrite (convert_ok _ _ _ _ _ Hext Hf Hpdf). simpl.
  split_and!.
  - by eexists.
  - eexists. erewrite get_manifest_archive by (simpl; apply lookup_insert_eq).
    rewrite converted_dir_manifest, JSON_manifest_roundtrip. done.
  - intros i image Hi.
    erewrite get_page_archive by (simpl; apply lookup_insert_eq).
    by rewrite (converted_dir_page _ _ _ _ _ _ _ Hi).
  - intros n.
    erewrite get_annotations_archive by (simpl; apply lookup_insert_eq).
    rewrite converted_dir_annotation.
    destruct (default ∅ (annotations st !! F) !! pretty n); simpl; [|done].
    by rewrite JSON_strokes_roundtrip.
Qed.


(** C4.  Reading the annotations of a page whose annotation entry is not
    in the archive of an existing container answers with the empty
    overlay, not with an error. *)
Theorem C4_missing_entry_reads_empty st f b directory (pageNum : string) :
  library st !! f = Some b →
  unzipper_open b = Some directory →
  (∀ e, e ∈ directory → path e ≠ annotation_path pageNum) →
  get_annotations st f pageNum = Reply [].
Proof.
  intros Hf Hb Habsent. unfold get_annotations. rewrite Hf, Hb.
  by rewrite (proj2 (find_path_None _ _) Habsent).
Qed.

(** C5, as the code has it.  Opening the manifest parses the
    [manifest.json] entry and serves what it holds; the version field is
    not looked at, so a manifest of any version is served. *)
Theorem C5_manifest_served_whatever_version st f b directory e m :
  library st !! f = Some b →
  unzipper_open b = Some directory →
  find_path "manifest.json" directory = Some e →
  JSON_parse_manifest (buffer e) = Some m →
  get_manifest st f = Reply m.
Proof.
  intros Hf Hb He Hm. unfold get_manifest.
  by rewrite Hf, Hb, He, Hm.
Qed.

(** C6, as the code has it.  Opening the manifest checks nothing against
    the entries of the archive.  Take the container of a five-page
    conversion and remove the image entry of any page [i] of 1..5: the
    manifest is still served with [pageCount] 5; page [i] is reported
    missing only when it is asked for, and the other four pages are
    served. *)
Theorem C6_manifest_served_without_validation now st F pdfFile images
    (i : N) :
  endsWith (toLowerCase F) ".pdf" = true →
  library st !! F = Some pdfFile →
  pdf pdfFile = Some images →
  length images = 5%nat →
  (1 ≤ i ≤ 5)%N →
  let damaged :=
    delete_entry (convert now st F).2 (regal_name F) (page_path (pretty i)) in
  (∃ image,
     get_page (convert now st F).2 (regal_name F) (pretty i) = Reply image) ∧
  (∃ m, get_manifest damaged (regal_name F) = Reply m ∧ pageCount m = 5%N) ∧
  get_page damaged (regal_name F) (pretty i) = Status 404 "Page not found" ∧
  (∀ j image, images !! j = Some image → (N.of_nat j + 1)%N ≠ i →
     get_page damaged (regal_name F) (pretty (N.of_nat j + 1)%N)
     = Reply image).
Proof.
  intros Hext Hf Hpdf Hlen Hi. simpl.
  rewrite (convert_ok _ _ _ _ _ Hext Hf Hpdf) in *. simpl in *.
  set (t := converted_dir now F pdfFile images
              (default ∅ (annotations st !! F))) in *.
  set (st' := Server _ _ _) in *.
  assert (library (delete_entry st' (regal_name F) (page_path (pretty i)))
            !! regal_name F
          = Some (archiver_zip
              (filter (λ e : entry, path e ≠ page_path (pretty i))
                      (archive_directory t)))) as Hlib.
  { apply (delete_entry_library st' _ (archiver_zip (archive_directory t)));
      [apply lookup_insert_eq|apply zip_roundtrip]. }
  split_and!.
  - destruct (lookup_lt_is_Some_2 images (N.to_nat i - 1)) as [image Himage];
      [lia|].
    exists image.
    erewrite get_page_archive by (simpl; apply lookup_insert_eq).
    replace i with (N.of_nat (N.to_nat i - 1) + 1)%N by lia.
    unfold t. by rewrite (converted_dir_page _ _ _ _ _ _ _ Himage).
  - unfold get_manifest. rewrite Hlib, zip_roundtrip.
    rewrite find_path_filter by done.
    rewrite find_path_archive by done.
    unfold t. rewrite converted_dir_manifest. simpl.
    rewrite JSON_manifest_roundtrip. eexists. split; [done|].
    simpl. by rewrite Hlen.
  - unfold get_page. rewrite Hlib, zip_roundtrip.
    by rewrite find_path_filter_same.
  - intros j image Hj Hji. unfold get_page. rewrite Hlib, zip_roundtrip.
    rewrite find_path_filter.
    + rewrite find_path_archive by by rewrite page_path_last.
      unfold t. by rewrite (converted_dir_page _ _ _ _ _ _ _ Hj).
    + intros Heq%page_path_inj%(inj pretty). done.
Qed.

(** C7, as the code has it.  The conversion does not look at the number
    of rendered pages: a document that renders to no image is converted
    like any other, into a container whose manifest has [pageCount] 0
    and an empty page list, and the request answers with success. *)
Theorem C7_zero_pages_still_converts now st F pdfFile :
  endsWith (toLowerCase F) ".pdf" = true →
  library st !! F = Some pdfFile →
  pdf pdfFile = Some [] →
  let result := convert now st F in
  (∃ body, result.1 = Reply body ∧ conv_name body = regal_name F ∧
           conv_pageCount body = 0%N) ∧
  is_Some (library result.2 !! regal_name F) ∧
  ∃ m, get_manifest result.2 (regal_name F) = Reply m ∧
       pageCount m = 0%N ∧ pages m = [].
Proof.
  intros Hext Hf Hpdf. simpl.
  rewrite (convert_ok _ _ _ _ _ Hext Hf Hpdf). simpl.
  split_and!.
  - by eexists.
  - rewrite lookup_insert_eq. by eexists.
  - eexists. erewrite get_manifest_archive by (simpl; apply lookup_insert_eq).
    rewrite converted_dir_manifest, JSON_manifest_roundtrip. done.
Qed.



(** C10.  After a successful conversion of [F], whose overlays the store
    keeps under decimal page numbers: the overlay store has no entry for
    [F] and its other entries are as before; the overlays are in the new
    container, which answers for every page with the overlay the store
    held (or [] where it held none); every shelf keeps its id, name and
    length; a shelf that did not list [F] is unchanged; a shelf that listed
    [F] has the new [.regal] name at the place of the first [F]; and a
    shelf without repeated names no longer lists [F]. *)
Theorem C10_conversion_moves_references now st F body st' :
  (∀ k, is_Some (default ∅ (annotations st !! F) !! k) →
        ∃ n : N, k = pretty n) →
  convert now st F = (Reply body, st') →
  annotations st' !! F = None ∧
  (∀ G, G ≠ F → annotations st' !! G = annotations st !! G) ∧
  (∀ n : N,
     get_annotations st' (regal_name F) (pretty n)
     = Reply (default [] (default ∅ (annotations st !! F) !! pretty n))) ∧
  length (shelves st') = length (shelves st) ∧
  ∀ i s, shelves st !! i = Some s →
    ∃ s', shelves st' !! i = Some s' ∧
      id s' = id s ∧ shelf_name s' = shelf_name s ∧
      (F ∉ files s → s' = s) ∧
      (F ∈ files s →
         ∃ idx, files s !! idx = Some F ∧
                (∀ j, (j < idx)%nat → files s !! j ≠ Some F) ∧
                files s' = <[idx := regal_name F]> (files s) ∧
                files s' !! idx = Some (regal_name F)) ∧
      (NoDup (files s) → F ∉ files s').
Proof.
  intros _ Hconv.
  destruct (convert_inv _ _ _ _ _ Hconv)
    as (pdfFile & images & Hext & Hf & Hpdf).
  rewrite (convert_ok _ _ _ _ _ Hext Hf Hpdf) in Hconv.
  injection Hconv as _ <-. simpl.
  split_and!.
  - apply lookup_delete_eq.
  - intros G HG. by apply lookup_delete_ne.
  - intros n.
    erewrite get_annotations_archive by (simpl; apply lookup_insert_eq).
    rewrite converted_dir_annotation.
    destruct (default ∅ (annotations st !! F) !! pretty n); simpl; [|done].
    by rewrite JSON_strokes_roundtrip.
  - apply length_fmap.
  - intros i s Hi. exists (update_shelf F (regal_name F) s).
    rewrite list_lookup_fmap, Hi. simpl. split_and!; try done.
    + intros Hnot. unfold update_shelf.
      rewrite replace_first_notin by done. by destruct s.
    + intros Hin.
      destruct (replace_first_in F (regal_name F) _ Hin)
        as (idx & Hidx & Hleast & Heq).
      exists idx. rewrite Heq. split_and!; try done.
      apply list_lookup_insert_eq. by eapply lookup_lt_Some.
    + intros Hnd. apply replace_first_gone; [done|apply regal_name_ne].
Qed.

End Claims.

(** * The claims on the reference runtime *)

Section Examples.
Import Reference.

Local Abbreviation now := "2024-01-01T00:00:00.000Z".

Example regal_name_upper : regal_name "Etude Op.10.PDF" = "Etude Op.10.regal".
Proof. reflexivity. Qed.

Example convert_not_pdf :
  (convert now st0 "song.regal").1
  = Status 400 "Only PDF files can be converted".
Proof. reflexivity. Qed.

(** A three-page document with one four-point pen stroke on page 2. *)
Example end_to_end :
  pageCount <$> body_of (get_manifest st1 "song.regal") = Some 3%N ∧
  has_annotations st1 "song.regal" = Reply true ∧
  get_annotations st1 "song.regal" "2" = Reply [pen] ∧
  get_annotations st1 "song.regal" "1" = Reply [] ∧
  get_annotations st1 "song.regal" "3" = Reply [] ∧
  shelves st1 = [Shelf "shelf-1" "Etudes" ["intro.pdf"; "song.regal"]].
Proof. vm_compute. by split_and!. Qed.

(** The entries of the converted container. *)
Example converted_entries :
  path <$> default [] (library st1 !! "song.regal" ≫= unzipper_open)
  ≡ₚ ["annotations/"; "pages/"; "manifest.json"; "original.pdf";
      "pages/page-1.png"; "pages/page-2.png"; "pages/page-3.png";
      "annotations/page-2.json"].
Proof. vm_compute. solve_Permutation. Qed.

(** C1 does not hold of the code: a save of page 1 that is stopped after
    fourteen effects has not finished, and the container is an empty
    file. *)
Lemma C1_counterexample :
  let stopped := put_run 14 save_page1 (library st1) put_start in
  pc stopped.2 = AtFinalize ∧
  stopped.1 !! "song.regal" = Some (Bytes EmptyString) ∧
  stopped.1 !! "song.regal" ≠ library st1 !! "song.regal".
Proof. vm_compute. by split_and!. Qed.

Lemma C1_witness :
  let stopped := put_stopped 13 (Threw ZipError) save_page1 (library st1) in
  stopped.1 = library st1 ∧
  "pages" ∈ td_dirs (temp stopped.2) ∧
  "annotations" ∈ td_dirs (temp stopped.2).
Proof.
  destruct (C1_unchanged_before_write 13 (Threw ZipError) save_page1
              (library st1) 1) as [Hlib Hscratch];
    [vm_compute; reflexivity|vm_compute; reflexivity
    |vm_compute; reflexivity|vm_compute; reflexivity|].
  split; [exact Hlib|]. apply Hscratch. vm_compute. reflexivity.
Defined.

Lemma C2_witness :
  get_page (convert now st0 "song.pdf").2 "song.regal" (pretty 2%N)
  = Reply (Bytes "b") ∧
  get_annotations (convert now st0 "song.pdf").2 "song.regal" (pretty 2%N)
  = Reply [pen].
Proof.
  assert (∀ k, is_Some (default ∅ (annotations st0 !! "song.pdf") !! k) →
               ∃ n : N, k = pretty n) as Hkeys.
  { intros k [x Hk]. exists 2%N. simpl in Hk.
    rewrite lookup_singleton_eq in Hk. simpl in Hk.
    by apply lookup_singleton_Some in Hk as [<- _]. }
  destruct (C2_convert_roundtrip now st0 "song.pdf" (Bytes "abc")
              [Bytes "a"; Bytes "b"; Bytes "c"]
              eq_refl eq_refl eq_refl Hkeys) as (_ & _ & Hpage & Hann).
  split.
  - exact (Hpage 1%nat (Bytes "b") eq_refl).
  - exact (Hann 2%N).
Defined.


Lemma C4_witness : get_annotations st1 "song.regal" "1" = Reply [].
Proof.
  eapply (C4_missing_entry_reads_empty st1 "song.regal");
    [vm_compute; reflexivity|reflexivity|].
  intros e He. vm_compute in He.
  repeat (apply elem_of_cons in He as [->|He]; [done|]).
  by apply elem_of_nil in He.
Defined.

(** C5 does not hold of the code: a manifest of version 2 is served. *)
Lemma C5_counterexample :
  get_manifest st_future "future.regal" = Reply manifest_v2 ∧
  version manifest_v2 ≠ 1%Z.
Proof. by vm_compute. Qed.

Lemma C5_witness : get_manifest st_future "future.regal" = Reply manifest_v2.
Proof.
  eapply (C5_manifest_served_whatever_version st_future "future.regal");
    [vm_compute; reflexivity|reflexivity|reflexivity|reflexivity].
Defined.

(** C6 does not hold of the code: with the image of page 3 removed from a
    five-page container, the manifest is served and claims five pages. *)
Lemma C6_counterexample :
  let damaged :=
    delete_entry (convert now st_suite "suite.pdf").2 "suite.regal"
      "pages/page-3.png" in
  pageCount <$> body_of (get_manifest damaged "suite.regal") = Some 5%N ∧
  get_page damaged "suite.regal" "3" = Status 404 "Page not found" ∧
  get_page damaged "suite.regal" "1" = Reply (Bytes "a") ∧
  get_page damaged "suite.regal" "2" = Reply (Bytes "b") ∧
  get_page damaged "suite.regal" "4" = Reply (Bytes "d") ∧
  get_page damaged "suite.regal" "5" = Reply (Bytes "e").
Proof. vm_compute. by split_and!. Qed.

Lemma C6_witness :
  get_page
    (delete_entry (convert now st_suite "suite.pdf").2 (regal_name "suite.pdf")
       (page_path (pretty 3%N)))
    (regal_name "suite.pdf") (pretty 3%N)
  = Status 404 "Page not found".
Proof.
  refine (proj1 (proj2 (proj2
    (C6_manifest_served_without_validation now st_suite
       "suite.pdf" (Bytes "abcde") _ 3 eq_refl eq_refl eq_refl eq_refl _)))).
  split; by vm_compute.
Defined.

(** C7 does not hold of the code: a document that renders to no page is
    converted with success, and a container is left in the library. *)
Lemma C7_counterexample :
  (convert now st_blank "blank.pdf").1
  = Reply (Converted "blank.regal" "/library/blank.regal" 0) ∧
  library st_blank !! "blank.regal" = None ∧
  library (convert now st_blank "blank.pdf").2 !! "blank.regal" ≠ None.
Proof. vm_compute. by split_and!. Qed.

Lemma C7_witness :
  is_Some (library (convert now st_blank "blank.pdf").2
             !! regal_name "blank.pdf").
Proof.
  exact (proj1 (proj2 (C7_zero_pages_still_converts now st_blank
    "blank.pdf" (Bytes EmptyString) eq_refl eq_refl eq_refl))).
Defined.





Lemma C10_witness :
  annotations (convert now st0 "song.pdf").2 !! "song.pdf" = None ∧
  get_annotations (convert now st0 "song.pdf").2 "song.regal" (pretty 2%N)
  = Reply [pen].
Proof.
  assert (∀ k, is_Some (default ∅ (annotations st0 !! "song.pdf") !! k) →
               ∃ n : N, k = pretty n) as Hkeys.
  { intros k [x Hk]. exists 2%N. simpl in Hk.
    rewrite lookup_singleton_eq in Hk. simpl in Hk.
    by apply lookup_singleton_Some in Hk as [<- _]. }
  destruct (C10_conversion_moves_references now st0 "song.pdf"
              (Converted "song.regal" "/library/song.regal" 3)
              (convert now st0 "song.pdf").2 Hkeys)
    as (Hgone & _ & Hread & _); [vm_compute; reflexivity|].
  split; [exact Hgone|exact (Hread 2%N)].
Defined.

End Examples.

(** * Properties of the other routes *)

(** ** Strings *)

Lemma substring_0_all (s : string) : substring 0 (String.length s) s = s.
Proof. induction s as [|c s IH]; simpl; [done|by rewrite IH]. Qed.

Lemma substring_app_r (s t : string) :
  substring (String.length s) (String.length t) (s +:+ t) = t.
Proof.
  induction s as [|c s IH]; [apply substring_0_all|].
  change (String c s +:+ t) with (String c (s +:+ t)). simpl. exact IH.
Qed.

Lemma substring_split (n : nat) (s : string) :
  (n ≤ String.length s)%nat →
  s = substring 0 n s +:+ substring n (String.length s - n) s.
Proof.
  revert n. induction s as [|c s IH]; intros [|n] Hn; simpl in *;
    try lia; try done.
  - by rewrite substring_0_all.
  - change (String c ?a +:+ ?b) with (String c (a +:+ b)).
    f_equal. apply IH. lia.
Qed.

Lemma endsWith_app (s suffix : string) : endsWith (s +:+ suffix) suffix = true.
Proof.
  unfold endsWith. rewrite string_length_app.
  rewrite bool_decide_eq_true_2 by lia. simpl.
  apply bool_decide_eq_true.
  replace (String.length s + String.length suffix - String.length suffix)%nat
    with (String.length s) by lia.
  apply substring_app_r.
Qed.

Lemma endsWith_inv (s suffix : string) :
  endsWith s suffix = true → ∃ pre, s = pre +:+ suffix.
Proof.
  unfold endsWith. intros [Hlen Hsub]%andb_true_iff.
  apply bool_decide_eq_true in Hlen, Hsub.
  exists (substring 0 (String.length s - String.length suffix) s).
  pose proof (substring_split (String.length s - String.length suffix) s)
    as Hsplit.
  replace (String.length s - (String.length s - String.length suffix))%nat
    with (String.length suffix) in Hsplit by lia.
  rewrite Hsub in Hsplit. apply Hsplit. lia.
Qed.

Lemma toLowerCase_app (s t : string) :
  toLowerCase (s +:+ t) = toLowerCase s +:+ toLowerCase t.
Proof.
  induction s as [|c s IH]; [done|].
  change (String c s +:+ t) with (String c (s +:+ t)). simpl.
  rewrite IH. done.
Qed.

Lemma toLowerCase_ascii_idemp (c : ascii) :
  toLowerCase_ascii (toLowerCase_ascii c) = toLowerCase_ascii c.
Proof.
  destruct c as [[] [] [] [] [] [] [] []]; reflexivity.
Qed.

Lemma toLowerCase_idemp (s : string) :
  toLowerCase (toLowerCase s) = toLowerCase s.
Proof.
  induction s as [|c s IH]; [done|].
  simpl. by rewrite toLowerCase_ascii_idemp, IH.
Qed.

Lemma truthy_Some (s : string) : truthy (Some s) = true ↔ s ≠ EmptyString.
Proof. by destruct s. Qed.

Lemma truthy_length (s : string) (n : nat) :
  (S n ≤ String.length s)%nat → truthy (Some s) = true.
Proof. destruct s; simpl; [lia|done]. Qed.

(** ** Sessions and the password *)

Section AuthProperties.
Context `{CR : Crypto}.

Implicit Types (a : auth_state) (token : string) (now : Z).

Lemma auth_setup_ok a salt0 password :
  AUTH_FILE a = None →
  (4 ≤ String.length password)%nat →
  auth_setup salt0 a (Some password)
  = (Reply (),
     AuthState (Some (AuthFile salt0 (pbkdf2Sync password salt0)))
       (sessions a)).
Proof.
  intros Hnone Hlen. destruct a as [file sess]. simpl in Hnone. subst file.
  destruct password as [|p0 password]; [simpl in Hlen; lia|].
  unfold auth_setup, setInitialPassword, isPasswordSet. simpl in *.
  by case_bool_decide; [lia|].
Qed.

Lemma auth_login_ok a auth token now password :
  AUTH_FILE a = Some auth →
  pbkdf2Sync password (salt auth) = hash auth →
  password ≠ EmptyString →
  auth_login token now a (Some password)
  = (Sent (Reply token),
     AuthState (AUTH_FILE a) (<[token := now]> (sessions a))).
Proof.
  intros Hfile Hhash Hpw. destruct password as [|p0 password]; [done|].
  unfold auth_login, isPasswordSet, verifyPassword, createSession.
  rewrite Hfile. simpl.
  by rewrite (bool_decide_eq_true_2 _ Hhash).
Qed.

Lemma requireAuth_true a header query now :
  (requireAuth header query now a).1 = true →
  (requireAuth header query now a).2 = a.
Proof.
  unfold requireAuth, isValidSession.
  destruct (truthy (if truthy header then header else query)); simpl;
    [|done].
  destruct (sessions a !! _); [|done].
  by case_bool_decide.
Qed.

(** X1.  A session is valid from its creation until seven days have
    passed, and checking it changes nothing. *)
Theorem session_valid_for_a_week a token t now :
  token ≠ EmptyString →
  (now - t ≤ SESSION_DURATION)%Z →
  isValidSession (Some token) now (createSession token t a).2
  = (true, (createSession token t a).2).
Proof.
  intros Htok Hnow. destruct token as [|c token]; [done|].
  unfold isValidSession, createSession. simpl.
  rewrite lookup_insert_eq.
  by rewrite bool_decide_eq_false_2 by lia.
Qed.

(** X2.  A check of a session that is more than seven days old fails and
    deletes the session: every later check fails as well, whatever the
    clock says then. *)
Theorem expired_session_is_deleted a token created now :
  token ≠ EmptyString →
  sessions a !! token = Some created →
  (now - created > SESSION_DURATION)%Z →
  let checked := isValidSession (Some token) now a in
  checked.1 = false ∧
  sessions checked.2 !! token = None ∧
  ∀ later, (isValidSession (Some token) later checked.2).1 = false.
Proof.
  intros Htok Hs Hnow. destruct token as [|c token]; [done|].
  unfold isValidSession. simpl.
  rewrite Hs. rewrite bool_decide_eq_true_2 by done. simpl.
  rewrite lookup_delete_eq. done.
Qed.

(** X3.  After a logout the token is no longer valid, and the validity of
    every other token is what it was. *)
Theorem logout_ends_the_session a token other now :
  other ≠ token →
  let a' := (auth_logout (Some token) a).2 in
  (isValidSession (Some token) now a').1 = false ∧
  (isValidSession (Some other) now a').1
  = (isValidSession (Some other) now a).1.
Proof.
  intros Hne. unfold auth_logout, isValidSession.
  destruct token as [|c token]; simpl; (split; [|reflexivity || idtac]).
  - done.
  - by rewrite lookup_delete_eq.
  - destruct other as [|d other]; simpl; [done|].
    rewrite lookup_delete_ne by congruence.
    destruct (sessions a !! String d other); [|done].
    by case_bool_decide.
Qed.

(** X4.  Once a password of at least four characters has been set up, a
    login with that password succeeds and opens a valid session. *)
Theorem setup_then_login a salt0 password token now :
  AUTH_FILE a = None →
  (4 ≤ String.length password)%nat →
  token ≠ EmptyString →
  let set := auth_setup salt0 a (Some password) in
  let login := auth_login token now set.2 (Some password) in
  set.1 = Reply () ∧
  login.1 = Sent (Reply token) ∧
  (isValidSession (Some token) now login.2).1 = true.
Proof.
  intros Hnone Hlen Htok. simpl.
  rewrite (auth_setup_ok _ _ _ Hnone Hlen). simpl.
  erewrite auth_login_ok; [|done|done|].
  - simpl. split_and!; [done|done|].
    destruct token as [|c token]; [done|].
    unfold isValidSession. simpl. rewrite lookup_insert_eq.
    rewrite bool_decide_eq_false_2; [done|]. unfold SESSION_DURATION. lia.
  - intros ->. simpl in Hlen. lia.
Qed.

(** X5.  The setup route never replaces a password that is set: whatever
    it is sent, it answers 400 and leaves the state as it is. *)
Theorem setup_never_overwrites a salt0 (password : option string) :
  is_Some (AUTH_FILE a) →
  ∃ message, auth_setup salt0 a password = (Status 400 message, a).
Proof.
  intros Hset. unfold auth_setup, isPasswordSet.
  destruct (truthy password); simpl; [|by eexists].
  case_bool_decide; [by eexists|].
  rewrite bool_decide_eq_true_2 by done. by eexists.
Qed.

(** X6.  A change of the password by a caller with a valid session, the
    right current password and a new one of at least six characters
    succeeds; a login with the new password then succeeds, and the
    sessions that were open stay open. *)
Theorem change_password_then_login a header query now salt0
    current new token later :
  (requireAuth header query now a).1 = true →
  current ≠ EmptyString →
  verifyPassword current a = Some true →
  (6 ≤ String.length new)%nat →
  let changed :=
    auth_change_password header query now salt0 a (Some current) (Some new) in
  changed.1 = Sent (Reply ()) ∧
  sessions changed.2 = sessions a ∧
  (auth_login token later changed.2 (Some new)).1 = Sent (Reply token).
Proof.
  intros Hauth Hcur Hver Hlen. simpl. unfold auth_change_password.
  rewrite Hauth, (requireAuth_true _ _ _ _ Hauth).
  destruct current as [|c0 current]; [done|].
  destruct new as [|n0 new]; [simpl in Hlen; lia|].
  simpl in *. rewrite Hver.
  rewrite bool_decide_eq_false_2 by lia. simpl.
  split_and!; [done|done|].
  by erewrite auth_login_ok.
Qed.

(** X7.  Unless the change-password route answers with success, the
    stored password is what it was. *)
Theorem change_password_failure_keeps_password a header query now salt0
    (current new : option string) :
  let changed :=
    auth_change_password header query now salt0 a current new in
  changed.1 ≠ Sent (Reply ()) →
  AUTH_FILE changed.2 = AUTH_FILE a.
Proof.
  simpl. unfold auth_change_password.
  assert (AUTH_FILE (requireAuth header query now a).2 = AUTH_FILE a)
    as Hsame.
  { unfold requireAuth, isValidSession.
    destruct (truthy (if truthy header then header else query)); simpl;
      [|done].
    destruct (sessions a !! _); [|done].
    by case_bool_decide. }
  destruct (requireAuth header query now a) as [[] a']; simpl in *; [|done].
  destruct (negb (truthy current) || negb (truthy new)); simpl; [done|].
  destruct (verifyPassword _ a') as [[]|]; simpl; try done.
  case_bool_decide; simpl; done.
Qed.

End AuthProperties.

(** ** Favourites *)

Lemma filter_all {A} (P : A → Prop) `{∀ x, Decision (P x)} (l : list A) :
  (∀ x, x ∈ l → P x) → filter P l = l.
Proof.
  induction l as [|x l IH]; intros Hall; [done|].
  rewrite filter_cons_True by (apply Hall; left).
  f_equal. apply IH. intros y Hy. apply Hall. by right.
Qed.

(** X8.  Adding a favourite puts it on the list once: the list keeps
    having no repeated name, every earlier favourite stays, and adding
    the same name again changes nothing. *)
Theorem add_favorite_once (favorites : list string) (f : string) :
  f ≠ EmptyString →
  NoDup favorites →
  let added := (add_favorite favorites (Some f)).2 in
  f ∈ added ∧ NoDup added ∧
  (∀ g, g ∈ favorites → g ∈ added) ∧
  add_favorite added (Some f) = (Reply added, added).
Proof.
  intros Hf Hnd. destruct f as [|c f]; [done|].
  unfold add_favorite. simpl.
  case_bool_decide as Hin; simpl.
  - split_and!; [done|done|done|]. by rewrite bool_decide_eq_true_2.
  - split_and!.
    + apply elem_of_app. right. apply list_elem_of_singleton. done.
    + apply NoDup_app. split_and!; [done| |apply NoDup_singleton].
      intros g Hg ->%list_elem_of_singleton. done.
    + intros g Hg. apply elem_of_app. by left.
    + rewrite bool_decide_eq_true_2; [done|].
      apply elem_of_app. right. by apply list_elem_of_singleton.
Qed.

(** X9.  Removing a favourite takes every occurrence of the name off the
    list and nothing else; adding a name that was not a favourite and
    removing it again gives the list back. *)
Theorem remove_favorite_removes (favorites : list string) (f : string) :
  f ≠ EmptyString →
  let removed := (remove_favorite favorites f).2 in
  (f ∉ removed) ∧
  (∀ g, g ≠ f → (g ∈ removed ↔ g ∈ favorites)) ∧
  (f ∉ favorites →
   (remove_favorite (add_favorite favorites (Some f)).2 f).2 = favorites).
Proof.
  intros Hf. unfold remove_favorite. simpl. split_and!.
  - intros [? _]%list_elem_of_filter. done.
  - intros g Hg. rewrite list_elem_of_filter. split; [by intros [??]|done].
  - intros Hnot. destruct f as [|c f]; [done|].
    unfold add_favorite. simpl.
    rewrite bool_decide_eq_false_2 by done. simpl.
    rewrite filter_app, filter_cons_False, filter_nil by (intros ?; done).
    rewrite app_nil_r. apply filter_all.
    intros g Hg ->. done.
Qed.

(** ** Shelves *)

Section RouteProperties.
Context `{RT : Runtime}.

Implicit Types (st : server) (f : string) (s : shelf).

Lemma find_shelf_insert (l : list shelf) (id0 : string) i s s' :
  list_find (λ s, id s = id0) l = Some (i, s) →
  id s' = id0 →
  list_find (λ s, id s = id0) (<[i := s']> l) = Some (i, s').
Proof.
  intros (Hi & _ & Hleast)%list_find_Some Hid.
  apply list_find_Some. split_and!.
  - apply list_lookup_insert_eq. by eapply lookup_lt_Some.
  - done.
  - intros j y Hj Hlt. rewrite list_lookup_insert_ne in Hj by lia.
    by eapply Hleast.
Qed.

(** X10.  Adding a file to a shelf puts it on the first shelf with that
    id, once: a shelf without repeated names stays so, the other shelves
    are untouched, and adding the same file again changes nothing. *)
Theorem add_file_to_shelf_once st (id0 : string) f i s :
  list_find (λ s, id s = id0) (shelves st) = Some (i, s) →
  let added := add_file_to_shelf st id0 f in
  ∃ s', added.1 = Reply s' ∧
    shelves added.2 !! i = Some s' ∧
    id s' = id0 ∧ shelf_name s' = shelf_name s ∧
    f ∈ files s' ∧
    (NoDup (files s) → NoDup (files s')) ∧
    (∀ j, j ≠ i → shelves added.2 !! j = shelves st !! j) ∧
    add_file_to_shelf added.2 id0 f = (Reply s', added.2).
Proof.
  intros Hfind. pose proof Hfind as (Hi & Hid & _)%list_find_Some.
  simpl. destruct (decide (f ∈ files s)) as [Hin|Hin].
  - assert (add_file_to_shelf st id0 f = (Reply s, st)) as Heq.
    { unfold add_file_to_shelf. rewrite Hfind.
      by rewrite bool_decide_eq_true_2. }
    rewrite Heq. simpl. exists s. by split_and!.
  - set (s' := Shelf (id s) (shelf_name s) (files s ++ [f])%list).
    assert (add_file_to_shelf st id0 f
            = (Reply s', with_shelves st (<[i := s']> (shelves st))))
      as Heq.
    { unfold add_file_to_shelf. rewrite Hfind.
      by rewrite bool_decide_eq_false_2. }
    rewrite Heq. simpl. exists s'. split_and!; [done| | | | | | |].
    + apply list_lookup_insert_eq. by eapply lookup_lt_Some.
    + done.
    + done.
    + simpl. apply elem_of_app. right. by apply list_elem_of_singleton.
    + simpl. intros Hnd. apply NoDup_app.
      split_and!; [done| |apply NoDup_singleton].
      intros g Hg ->%list_elem_of_singleton. done.
    + intros j Hj. by apply list_lookup_insert_ne.
    + unfold add_file_to_shelf. simpl.
      erewrite find_shelf_insert by done. simpl.
      rewrite bool_decide_eq_true_2; [done|].
      apply elem_of_app. right. by apply list_elem_of_singleton.
Qed.

(** X11.  Removing a file from a shelf takes every occurrence of the name
    off the first shelf with that id and leaves the other names, the other
    shelves, the library and the overlay store as they are. *)
Theorem remove_file_from_shelf_removes st (id0 : string) f i s :
  list_find (λ s, id s = id0) (shelves st) = Some (i, s) →
  let removed := remove_file_from_shelf st id0 f in
  ∃ s', removed.1 = Reply s' ∧
    shelves removed.2 !! i = Some s' ∧
    (f ∉ files s') ∧
    (∀ g, g ≠ f → (g ∈ files s' ↔ g ∈ files s)) ∧
    (∀ j, j ≠ i → shelves removed.2 !! j = shelves st !! j) ∧
    library removed.2 = library st ∧
    annotations removed.2 = annotations st.
Proof.
  intros Hfind. pose proof Hfind as (Hi & Hid & _)%list_find_Some.
  simpl. unfold remove_file_from_shelf. rewrite Hfind. simpl.
  eexists. split_and!; [done| | | | |done|done].
  - apply list_lookup_insert_eq. by eapply lookup_lt_Some.
  - simpl. intros [? _]%list_elem_of_filter. done.
  - simpl. intros g Hg. rewrite list_elem_of_filter.
    split; [by intros [??]|done].
  - intros j Hj. by apply list_lookup_insert_ne.
Qed.

(** X12.  After a shelf has been deleted, every shelf route that names
    its id answers 404, also when several shelves had that id; shelves
    with another id are all kept. *)
Theorem deleted_shelf_is_gone st (id0 : string) f name0 files0 :
  let st' := (delete_shelf st id0).2 in
  (put_shelf st' id0 name0 files0).1 = Status 404 "Shelf not found" ∧
  (add_file_to_shelf st' id0 f).1 = Status 404 "Shelf not found" ∧
  (remove_file_from_shelf st' id0 f).1 = Status 404 "Shelf not found" ∧
  ∀ s, s ∈ shelves st → id s ≠ id0 → s ∈ shelves st'.
Proof.
  simpl.
  assert (list_find (λ s, id s = id0)
            (filter (λ s, id s ≠ id0) (shelves st)) = None) as Hnone.
  { apply list_find_None, Forall_forall.
    by intros s [? _]%list_elem_of_filter. }
  unfold put_shelf, add_file_to_shelf, remove_file_from_shelf. simpl.
  rewrite Hnone. split_and!; [done|done|done|].
  intros s Hs Hid. by apply list_elem_of_filter.
Qed.

(** X13.  A shelf created at a time at which no shelf has been created
    before is empty and is the shelf its id names: a file added under that
    id lands on it. *)
Theorem created_shelf_can_be_filled (now : N) st name0 f :
  (∀ s, s ∈ shelves st → id s ≠ "shelf-" +:+ pretty now) →
  let created := create_shelf now st name0 in
  ∃ s0, created.1 = Reply s0 ∧ files s0 = [] ∧
    shelves created.2 = (shelves st ++ [s0])%list ∧
    ∃ s1, (add_file_to_shelf created.2 (id s0) f).1 = Reply s1 ∧
          files s1 = [f] ∧
          shelves (add_file_to_shelf created.2 (id s0) f).2
          = (shelves st ++ [s1])%list.
Proof.
  intros Hfresh. simpl. unfold create_shelf. eexists.
  split_and!; [done|done|done|]. simpl.
  assert (list_find (λ s, id s = "shelf-" +:+ pretty now)
            (shelves st ++ [Shelf ("shelf-" +:+ pretty now)
                (if truthy name0 then default EmptyString name0
                 else "New Shelf") []])
          = Some (length (shelves st),
                  Shelf ("shelf-" +:+ pretty now)
                    (if truthy name0 then default EmptyString name0
                     else "New Shelf") [])) as Hfind.
  { apply list_find_Some. split_and!.
    - by rewrite lookup_app_r, Nat.sub_diag.
    - done.
    - intros j y Hj Hlt. rewrite lookup_app_l in Hj by done.
      apply Hfresh. by eapply list_elem_of_lookup_2. }
  unfold add_file_to_shelf. simpl. rewrite Hfind. simpl.
  eexists. split_and!; [done|done|].
  simpl. rewrite insert_app_r_alt, Nat.sub_diag by done. done.
Qed.

(** ** The overlay store of the PDFs *)

(** X14.  A non-empty overlay saved for a page of a PDF, under a file
    name and a page number that [Object.prototype] does not define, is
    what the store returns for that page; the other pages of the file and
    the other files are as before. *)
Theorem put_pdf_annotations_roundtrip st f (p : string) x l :
  own_key f = true →
  own_key p = true →
  let st' := (put_pdf_annotations st f p (Some (x :: l))).2 in
  (∃ m, get_pdf_annotations st' f = Reply m ∧ m !! p = Some (x :: l) ∧
        ∀ q, q ≠ p →
          m !! q = default ∅ (annotations st !! f) !! q) ∧
  ∀ g, g ≠ f → get_pdf_annotations st' g = get_pdf_annotations st g.
Proof.
  intros _ _.
  simpl. unfold get_pdf_annotations, put_pdf_annotations. simpl. split.
  - eexists. split; [done|]. rewrite lookup_insert_eq. simpl.
    split; [apply lookup_insert_eq|].
    intros q Hq. by rewrite lookup_insert_ne.
  - intros g Hg. by rewrite lookup_insert_ne.
Qed.

(** X15.  Saving an empty or absent overlay for a page of a PDF removes
    the page from the store; the file stays listed among the annotated
    files exactly when it has another page with an overlay. *)
Theorem put_pdf_annotations_empty st f (p : string)
    (strokes : option (list stroke)) :
  strokes = None ∨ strokes = Some [] →
  let st' := (put_pdf_annotations st f p strokes).2 in
  (∃ m, get_pdf_annotations st' f = Reply m ∧ m !! p = None ∧
        ∀ q, q ≠ p →
          m !! q = default ∅ (annotations st !! f) !! q) ∧
  (f ∈ dom (annotations st') ↔
   ∃ q, q ≠ p ∧ is_Some (default ∅ (annotations st !! f) !! q)) ∧
  ∀ g, g ≠ f → get_pdf_annotations st' g = get_pdf_annotations st g.
Proof.
  intros Hempty%nonempty_false. simpl.
  unfold get_pdf_annotations, put_pdf_annotations. rewrite Hempty. simpl.
  set (m := default ∅ (annotations st !! f)).
  case_bool_decide as Hm; split_and!.
  - eexists. split; [done|]. rewrite lookup_delete_eq. simpl.
    split; [done|]. intros q Hq.
    rewrite <- (lookup_delete_ne m p q) by done. by rewrite Hm.
  - rewrite elem_of_dom, lookup_delete_eq. split; [by intros [??]|].
    intros (q & Hq & Hsome).
    rewrite <- (lookup_delete_ne m p q) in Hsome by done.
    rewrite Hm, lookup_empty in Hsome. by destruct Hsome.
  - intros g Hg. by rewrite lookup_delete_ne.
  - eexists. split; [done|]. rewrite lookup_insert_eq. simpl.
    split; [apply lookup_delete_eq|].
    intros q Hq. by rewrite lookup_delete_ne.
  - rewrite elem_of_dom, lookup_insert_eq. split; [|by eexists].
    intros _. apply map_choose in Hm as (q & x & Hq).
    exists q. apply lookup_delete_Some in Hq as [Hne Hq].
    split; [done|by eexists].
  - intros g Hg. by rewrite lookup_insert_ne.
Qed.

(** X16.  Every route that writes the overlay store keeps it free of empty
    entries: saving the overlay of a page of a PDF (under a file name and
    a page number that [Object.prototype] does not define), clearing the
    overlays of a PDF, converting a PDF and renaming a file. *)
Theorem clean_store_kept st :
  clean_store (annotations st) →
  (∀ f p strokes,
     own_key f = true → own_key p = true →
     clean_store (annotations (put_pdf_annotations st f p strokes).2)) ∧
  (∀ f, clean_store (annotations (delete_pdf_annotations st f).2)) ∧
  (∀ now F, clean_store (annotations (convert now st F).2)) ∧
  (∀ f newName, clean_store (annotations (rename_file st f newName).2)).
Proof.
  intros Hclean. unfold clean_store in *.
  assert (∀ f g m, delete f (annotations st) !! g = Some m →
            m ≠ ∅ ∧ ∀ p o, m !! p = Some o → o ≠ []) as Hdelete.
  { intros f g m [_ Hg]%lookup_delete_Some. by apply (Hclean g). }
  assert (∀ f q o, default ∅ (annotations st !! f) !! q = Some o → o ≠ [])
    as Hpages.
  { intros f q o. destruct (annotations st !! f) as [m|] eqn:Hf; simpl.
    - intros Hq. by apply (Hclean f m Hf) in Hq.
    - by rewrite lookup_empty. }
  split_and!.
  - intros f p strokes _ _. unfold put_pdf_annotations. simpl.
    destruct (nonempty strokes) eqn:Hne.
    + apply nonempty_true in Hne as (x & l & ->). simpl.
      intros g m [[<- <-]|[Hg Hm]]%lookup_insert_Some.
      * split; [apply insert_non_empty|].
        intros q o [[_ <-]|[_ Hq]]%lookup_insert_Some; [done|].
        by eapply Hpages.
      * by apply (Hclean g).
    + case_bool_decide as Hm; [apply Hdelete|].
      intros g m [[<- <-]|[Hg Hg']]%lookup_insert_Some.
      * split; [done|]. intros q o [_ Hq]%lookup_delete_Some.
        by eapply Hpages.
      * by apply (Hclean g).
  - intros f. apply Hdelete.
  - intros now F. unfold convert.
    destruct (negb _); [done|].
    destruct (library st !! F) as [pdfFile|]; [|done].
    destruct (pdf pdfFile) as [images|]; [|done].
    destruct (write_pages _ _ _ _) as [[??]?]. simpl. apply Hdelete.
  - intros f newName. unfold rename_file.
    destruct (_ || _); [done|].
    destruct (library st !! f) as [content|]; [|done].
    destruct (_ && _); [done|]. simpl.
    case_bool_decide; [|done].
    destruct (annotations st !! f) as [a|] eqn:Ha; [|done].
    intros g m [Hg [[<- <-]|[Hg' Hm]]%lookup_insert_Some]%lookup_delete_Some.
    + by apply (Hclean f).
    + by apply (Hclean g).
Qed.

(** X17.  On a store without empty entries, the list of annotated files
    names exactly the files for which the store returns a page with a
    stroke. *)
Theorem listed_iff_has_strokes st :
  clean_store (annotations st) →
  ∃ listed, list_annotated st = Reply listed ∧
    ∀ f, f ∈ listed ↔
      ∃ m p x l, get_pdf_annotations st f = Reply m ∧
                 m !! p = Some (x :: l).
Proof.
  intros Hclean. unfold clean_store in *. eexists. split; [done|].
  intros f. rewrite elem_of_dom. unfold get_pdf_annotations. split.
  - intros [m Hf]. destruct (Hclean f m Hf) as [Hne Hpages].
    apply map_choose in Hne as (p & s & Hp).
    destruct s as [|x l]; [by destruct (Hpages p [] Hp)|].
    exists m, p, x, l. by rewrite Hf.
  - intros (m & p & x & l & [= <-] & Hp).
    destruct (annotations st !! f); [done|].
    simpl in Hp. by rewrite lookup_empty in Hp.
Qed.

(** ** Renaming a file *)

Lemma rename_file_ok st f n content :
  trim n ≠ EmptyString →
  library st !! f = Some content →
  (is_Some (library st !! final_name f n) → f = final_name f n) →
  rename_file st f (Some n)
  = (Reply {| ren_oldName := f; ren_newName := final_name f n;
              ren_path :=
                "/library/" +:+ encodeURIComponent (final_name f n) |},
     {| library := <[final_name f n := content]> (delete f (library st));
        annotations :=
          if bool_decide (toLowerCase (extname f) = ".pdf")
          then
            match annotations st !! f with
            | Some a => delete f (<[final_name f n := a]> (annotations st))
            | None => annotations st
            end
          else annotations st;
        shelves := update_shelf f (final_name f n) <$> shelves st |}).
Proof.
  intros Htrim Hf Hfree. unfold rename_file.
  assert (n ≠ EmptyString) as Hn by (by intros ->).
  rewrite (proj2 (truthy_Some n) Hn).
  change (default EmptyString (Some n)) with n.
  rewrite (proj2 (truthy_Some (trim n)) Htrim). simpl.
  rewrite Hf.
  destruct (decide (f = final_name f n)) as [Heq|Hne].
  - rewrite (bool_decide_eq_false_2 (f ≠ _)) by (by intros ?).
    by rewrite andb_false_r.
  - rewrite (bool_decide_eq_false_2 (is_Some _)) by (by intros ?%Hfree).
    done.
Qed.

(** X18.  A rename to a plain file name that is free moves the file: its
    content is found under the new name, nothing is left under the old
    name, every other file is untouched, and every shelf that listed the
    old name lists the new one. *)
Theorem rename_moves_file st f n content :
  trim n ≠ EmptyString →
  library st !! f = Some content →
  plain_name (final_name f n) = true →
  final_name f n ≠ f →
  library st !! final_name f n = None →
  let renamed := rename_file st f (Some n) in
  (∃ body, renamed.1 = Reply body ∧ ren_oldName body = f ∧
           ren_newName body = final_name f n) ∧
  library renamed.2 !! final_name f n = Some content ∧
  library renamed.2 !! f = None ∧
  (∀ g, g ≠ f → g ≠ final_name f n →
        library renamed.2 !! g = library st !! g) ∧
  (∀ i s, shelves st !! i = Some s →
     ∃ s', shelves renamed.2 !! i = Some s' ∧
           (f ∉ files s → s' = s) ∧
           (f ∈ files s → final_name f n ∈ files s')).
Proof.
  intros Htrim Hf _ Hne Hfree. simpl.
  rewrite (rename_file_ok st f n content Htrim Hf)
    by (rewrite Hfree; by intros [??]).
  simpl. split_and!.
  - by eexists.
  - apply lookup_insert_eq.
  - rewrite lookup_insert_ne by done. apply lookup_delete_eq.
  - intros g Hg Hg'. by rewrite lookup_insert_ne, lookup_delete_ne.
  - intros i s Hi. exists (update_shelf f (final_name f n) s).
    rewrite list_lookup_fmap, Hi. split_and!; [done| |].
    + intros Hnot. unfold update_shelf.
      rewrite replace_first_notin by done. by destruct s.
    + intros Hin.
      destruct (replace_first_in f (final_name f n) _ Hin)
        as (idx & Hidx & _ & Heq).
      simpl. rewrite Heq. apply list_elem_of_lookup. exists idx.
      apply list_lookup_insert_eq. by eapply lookup_lt_Some.
Qed.

(** X19.  The name a rename gives a file always ends, up to case, in the
    extension the file had. *)
Theorem rename_keeps_extension st f newName body st' :
  rename_file st f newName = (Reply body, st') →
  endsWith (toLowerCase (ren_newName body)) (toLowerCase (extname f)) = true.
Proof.
  unfold rename_file.
  destruct (_ || _); [done|].
  destruct (library st !! f) as [content|]; [|done].
  destruct (_ && _); [done|].
  intros [= <- _]. simpl. unfold final_name.
  destruct (endsWith (toLowerCase (trim _)) _) eqn:Hends; [done|].
  rewrite toLowerCase_app, toLowerCase_idemp. apply endsWith_app.
Qed.

(** X20.  A rename onto the name of another file of the library is
    refused with 400, and nothing is changed. *)
Theorem rename_refuses_existing st f n content :
  trim n ≠ EmptyString →
  library st !! f = Some content →
  final_name f n ≠ f →
  is_Some (library st !! final_name f n) →
  rename_file st f (Some n)
  = (Status 400 "A file with that name already exists", st).
Proof.
  intros Htrim Hf Hne Htaken. unfold rename_file.
  assert (n ≠ EmptyString) as Hn by (by intros ->).
  rewrite (proj2 (truthy_Some n) Hn).
  change (default EmptyString (Some n)) with n.
  rewrite (proj2 (truthy_Some (trim n)) Htrim). simpl.
  rewrite Hf.
  rewrite (bool_decide_eq_true_2 (is_Some _)) by done.
  by rewrite (bool_decide_eq_true_2 (f ≠ _)) by done.
Qed.

(** X21.  When a PDF is renamed to another plain file name that is free,
    its overlays follow it: the store holds them under the new name and
    has nothing under the old one, and the entries of the other files are
    untouched. *)
Theorem rename_moves_annotations st f n content a :
  trim n ≠ EmptyString →
  library st !! f = Some content →
  plain_name (final_name f n) = true →
  final_name f n ≠ f →
  library st !! final_name f n = None →
  toLowerCase (extname f) = ".pdf" →
  annotations st !! f = Some a →
  let renamed := rename_file st f (Some n) in
  annotations renamed.2 !! final_name f n = Some a ∧
  annotations renamed.2 !! f = None ∧
  ∀ g, g ≠ f → g ≠ final_name f n →
       annotations renamed.2 !! g = annotations st !! g.
Proof.
  intros Htrim Hf _ Hne Hfree Hext Ha. simpl.
  rewrite (rename_file_ok st f n content Htrim Hf)
    by (rewrite Hfree; by intros [??]).
  simpl. rewrite Hext, Ha. simpl. split_and!.
  - rewrite lookup_delete_ne by done. apply lookup_insert_eq.
  - apply lookup_delete_eq.
  - intros g Hg Hg'. by rewrite lookup_delete_ne, lookup_insert_ne.
Qed.

(** X22.  Renaming a file that is not a PDF leaves the overlay store as
    it is, whatever the outcome. *)
Theorem rename_other_type_keeps_store st f newName :
  toLowerCase (extname f) ≠ ".pdf" →
  annotations (rename_file st f newName).2 = annotations st.
Proof.
  intros Hext. unfold rename_file.
  destruct (_ || _); [done|].
  destruct (library st !! f) as [content|]; [|done].
  destruct (_ && _); [done|]. simpl.
  by rewrite bool_decide_eq_false_2.
Qed.

(** X23.  Renaming a PDF to the name it has is answered with success and
    leaves the library and the shelves as they are, but the store loses
    the overlays of the file: the entry is assigned to itself and then
    deleted. *)
Theorem rename_to_own_name_drops_annotations st f n content :
  trim n ≠ EmptyString →
  library st !! f = Some content →
  final_name f n = f →
  toLowerCase (extname f) = ".pdf" →
  let renamed := rename_file st f (Some n) in
  (∃ body, renamed.1 = Reply body ∧ ren_newName body = f) ∧
  library renamed.2 = library st ∧
  shelves renamed.2 = shelves st ∧
  annotations renamed.2 !! f = None ∧
  ∀ g, g ≠ f → annotations renamed.2 !! g = annotations st !! g.
Proof.
  intros Htrim Hf Heq Hext. simpl.
  rewrite (rename_file_ok st f n content Htrim Hf) by (by rewrite Heq).
  simpl. rewrite Heq, Hext. simpl. split_and!.
  - by eexists.
  - rewrite insert_delete_eq. by apply insert_id.
  - rewrite <- (list_fmap_id (shelves st)) at 2.
    apply list_fmap_ext. intros i s _. unfold update_shelf, replace_first.
    destruct (list_find _ (files s)) as [[idx x]|] eqn:Hfind;
      [|by destruct s].
    apply list_find_Some in Hfind as (Hidx & -> & _).
    rewrite list_insert_id by done. by destruct s.
  - destruct (annotations st !! f) as [a|] eqn:Ha; [|done].
    apply lookup_delete_eq.
  - intros g Hg. destruct (annotations st !! f) as [a|] eqn:Ha; [|done].
    by rewrite lookup_delete_ne, lookup_insert_ne.
Qed.

End RouteProperties.

(** ** The remaining container reads *)

Lemma string_app_cons c (s t : string) : String c s +:+ t = String c (s +:+ t).
Proof. reflexivity. Qed.

Lemma string_app_assoc (s t u : string) : (s +:+ t) +:+ u = s +:+ (t +:+ u).
Proof.
  induction s as [|c s IH]; [done|].
  rewrite !string_app_cons. by rewrite IH.
Qed.

Lemma is_digit_pretty_N_char (k : N) : is_digit (pretty_N_char k) = true.
Proof. unfold pretty_N_char. by repeat case_match. Qed.

Lemma span_digits_pretty_go (x : N) (s r : string) :
  span_digits (s +:+ r) = (s, r) →
  span_digits (pretty_N_go x s +:+ r) = (pretty_N_go x s, r).
Proof.
  revert s. induction (N.lt_wf_0 x) as [x _ IH]; intros s Hs.
  destruct (decide (x = 0)%N) as [->|Hx]; [by rewrite pretty_N_go_0|].
  rewrite pretty_N_go_step by lia. apply IH.
  - apply N.div_lt; lia.
  - rewrite string_app_cons. simpl.
    by rewrite is_digit_pretty_N_char, Hs.
Qed.

Lemma span_digits_pretty_json (n : N) :
  span_digits (pretty n +:+ ".json") = (pretty n, ".json").
Proof.
  unfold pretty, pretty_N. destruct (decide (n = 0)%N); [done|].
  by apply span_digits_pretty_go.
Qed.

Lemma pretty_N_go_nonempty (x : N) (s : string) :
  s ≠ EmptyString → pretty_N_go x s ≠ EmptyString.
Proof.
  revert s. induction (N.lt_wf_0 x) as [x _ IH]; intros s Hs.
  destruct (decide (x = 0)%N) as [->|Hx]; [by rewrite pretty_N_go_0|].
  rewrite pretty_N_go_step by lia. apply IH; [apply N.div_lt; lia|done].
Qed.

Lemma pretty_N_nonempty (n : N) : pretty n ≠ EmptyString.
Proof.
  unfold pretty, pretty_N. destruct (decide (n = 0)%N); [done|].
  rewrite pretty_N_go_step by lia. by apply pretty_N_go_nonempty.
Qed.

Lemma match_page_json_here_page (rest d : string) :
  span_digits rest = (d, ".json") →
  d ≠ EmptyString →
  match_page_json_here ("page-" +:+ rest) = Some d.
Proof.
  intros Hspan Hd. unfold match_page_json_here.
  change (strip_prefix "page-" ("page-" +:+ rest)) with (Some rest).
  lazy beta iota zeta. rewrite Hspan. by destruct d.
Qed.

Lemma match_page_json_skip (s : string) :
  match_page_json ("annotations/" +:+ s) = match_page_json s.
Proof. reflexivity. Qed.

Lemma match_page_json_annotation_path (n : N) :
  match_page_json (annotation_path (pretty n)) = Some (pretty n).
Proof.
  change (annotation_path (pretty n))
    with ("annotations/" +:+ ("page-" +:+ (pretty n +:+ ".json"))).
  rewrite match_page_json_skip.
  pose proof (match_page_json_here_page _ _ (span_digits_pretty_json n)
                (pretty_N_nonempty n)) as Hhere.
  destruct ("page-" +:+ (pretty n +:+ ".json")) eqn:E; [done|].
  simpl. by rewrite Hhere.
Qed.

Lemma is_annotation_file_annotation_path (d : string) :
  is_annotation_file (annotation_path d) = true.
Proof.
  unfold is_annotation_file. apply andb_true_iff. split.
  - unfold annotation_path. by rewrite !string_app_cons.
  - unfold annotation_path. rewrite <- string_app_assoc. apply endsWith_app.
Qed.

Lemma endsWith_json_last (k : string) :
  endsWith k ".json" = true → string_last k = Some "n"%char.
Proof. intros [pre ->]%endsWith_inv. by apply string_last_app_Some. Qed.

Section ReadProperties.
Context `{RT : Runtime}.

Local Abbreviation entry := (zip_entry blob).

Implicit Types (st : server) (t : tempdir) (f : string).

Lemma numbered_checked t : numbered_check t = true → numbered t.
Proof.
  unfold numbered_check. rewrite forallb_forall. intros Hall k c Hk Hfile.
  specialize (Hall (k, c)). unfold numbered_file in Hall. simpl in Hall.
  rewrite Hfile in Hall. simpl in Hall.
  destruct (match_page_json k) as [d|]; [|by discriminate Hall;
    apply list_elem_of_In, elem_of_map_to_list].
  destruct (JSON_parse_strokes c) as [o|]; [|by discriminate Hall;
    apply list_elem_of_In, elem_of_map_to_list].
  exists d, o. split_and!; [|done|done].
  eapply bool_decide_eq_true_1, Hall.
  by apply list_elem_of_In, elem_of_map_to_list.
Qed.

Lemma write_pages_keys (images : list blob) n pd t k c :
  td_files (write_pages images n pd t).2 !! k = Some c →
  td_files t !! k = Some c ∨ ∃ i : N, k = page_path (pretty i).
Proof.
  revert n pd t. induction images as [|image rest IH]; intros n pd t;
    [by left|].
  simpl. intros [Hk|Hk]%IH; [|by right].
  simpl in Hk. apply lookup_insert_Some in Hk as [[<- _]|[_ Hk]];
    [right; by eexists|by left].
Qed.

Lemma numbered_converted_dir now F (pdfFile : blob) images
    (prior : gmap string (list stroke)) :
  (∀ k, is_Some (prior !! k) → ∃ n : N, k = pretty n) →
  numbered (converted_dir now F pdfFile images prior).
Proof.
  intros Hkeys k c Hk Hfile. unfold converted_dir in Hk. simpl in Hk.
  apply lookup_insert_Some in Hk as [[<- _]|[_ Hk]]; [done|].
  apply lookup_insert_Some in Hk as [[<- _]|[_ Hk]]; [done|].
  rewrite write_annotations_files in Hk.
  apply lookup_union_Some_raw in Hk as [Hk|[_ Hk]].
  - apply (lookup_kmap_Some annotation_path) in Hk as (d & -> & Hd).
    apply lookup_fmap_Some in Hd as (o & <- & Hd).
    destruct (Hkeys d) as [n ->]; [by eexists|].
    exists (pretty n), o. split_and!; [done| |].
    + apply match_page_json_annotation_path.
    + apply JSON_strokes_roundtrip.
  - apply write_pages_keys in Hk as [Hk|[i ->]]; [|done].
    simpl in Hk. by rewrite lookup_empty in Hk.
Qed.


(** The loop of lines 777-784 over the files of a rebuilt archive. *)
Lemma get_all_annotations_fold (l : list (string * blob))
    (base : gmap string (list stroke)) :
  NoDup l.*1 →
  (∀ k c, (k, c) ∈ l → is_annotation_file k = true →
     ∃ d o, k = annotation_path d ∧ match_page_json k = Some d ∧
            JSON_parse_strokes c = Some o) →
  ∃ all,
    foldl (λ acc (file : entry),
             acc ≫= λ annotations0,
               match match_page_json (path file) with
               | None => Some annotations0
               | Some pageNum =>
                   (λ o, <[pageNum := o]> annotations0)
                     <$> JSON_parse_strokes (buffer file)
               end)
          (Some base)
          (filter (λ file : entry, is_annotation_file (path file) = true)
                  ((λ pc, ZipEntry pc.1 File pc.2) <$> l))
    = Some all ∧
    ∀ d, all !! d
         = match (list_to_map l : gmap string blob) !! annotation_path d with
           | Some c => JSON_parse_strokes c
           | None => base !! d
           end.
Proof.
  revert base. induction l as [|[k c] l IH]; intros base Hnd Hok.
  { exists base. split; [done|]. intros d. simpl. by rewrite lookup_empty. }
  rewrite fmap_cons in Hnd. apply NoDup_cons in Hnd as [Hk Hnd].
  cbn [fst] in Hk.
  assert (∀ k' c', (k', c') ∈ l → is_annotation_file k' = true →
            ∃ d o, k' = annotation_path d ∧ match_page_json k' = Some d ∧
                   JSON_parse_strokes c' = Some o) as Hok'.
  { intros k' c' Hin. apply Hok. by right. }
  rewrite fmap_cons, filter_cons. cbn [path buffer fst snd].
  destruct (decide (is_annotation_file k = true)) as [Hfile|Hfile].
  - destruct (Hok k c) as (d0 & o0 & -> & Hmatch & Hparse); [left|done|].
    cbn [foldl path buffer]. rewrite Hmatch, Hparse.
    destruct (IH (<[d0 := o0]> base) Hnd Hok') as (all & Hfold & Hall).
    exists all. split; [exact Hfold|]. intros d. rewrite Hall.
    rewrite list_to_map_cons.
    destruct (decide (d = d0)) as [->|Hd].
    + rewrite lookup_insert_eq.
      rewrite (not_elem_of_list_to_map_1 l (annotation_path d0)) by done.
      by rewrite lookup_insert_eq.
    + rewrite (lookup_insert_ne (list_to_map l))
        by (by intros ?%annotation_path_inj).
      by rewrite (lookup_insert_ne base) by done.
  - destruct (IH base Hnd Hok') as (all & Hfold & Hall).
    exists all. split; [exact Hfold|]. intros d. rewrite Hall.
    rewrite list_to_map_cons, lookup_insert_ne; [done|].
    intros ->. by rewrite is_annotation_file_annotation_path in Hfile.
Qed.

Lemma annotation_files_of_archive t :
  filter (λ file : entry, is_annotation_file (path file) = true)
         (archive_directory t)
  = filter (λ file : entry, is_annotation_file (path file) = true)
           ((λ pc, ZipEntry pc.1 File pc.2) <$> map_to_list (td_files t)).
Proof.
  unfold archive_directory. rewrite filter_app.
  induction (elements (td_dirs t)) as [|d ds IH]; [done|].
  rewrite fmap_cons, filter_cons. cbn [path].
  destruct (decide _) as [Hfile|_]; [|exact IH].
  apply andb_true_iff in Hfile as [_ Hends%endsWith_json_last].
  by rewrite dir_entry_last in Hends.
Qed.

Lemma get_all_annotations_archive st f t :
  library st !! f = Some (archiver_zip (archive_directory t)) →
  numbered t →
  ∃ all, get_all_annotations st f = Reply all ∧
    ∀ d, all !! d = td_files t !! annotation_path d ≫= JSON_parse_strokes.
Proof.
  intros Hf Ht. unfold get_all_annotations. rewrite Hf, zip_roundtrip.
  change (filter _ (archive_directory t))
    with (filter (λ file : entry, is_annotation_file (path file) = true)
                 (archive_directory t)).
  rewrite annotation_files_of_archive.
  destruct (get_all_annotations_fold (map_to_list (td_files t)) ∅)
    as (all & Hfold & Hall).
  - apply NoDup_fst_map_to_list.
  - intros k c Hin%elem_of_map_to_list. by apply Ht.
  - rewrite Hfold. exists all. split; [done|]. intros d.
    rewrite Hall, list_to_map_to_list.
    destruct (td_files t !! annotation_path d); [done|].
    by rewrite lookup_empty.
Qed.

Lemma has_annotations_archive st f t (all : gmap string (list stroke)) :
  library st !! f = Some (archiver_zip (archive_directory t)) →
  numbered t →
  (∀ d, all !! d = td_files t !! annotation_path d ≫= JSON_parse_strokes) →
  has_annotations st f = Reply (bool_decide (all ≠ ∅)).
Proof.
  intros Hf Ht Hall. unfold has_annotations. rewrite Hf, zip_roundtrip.
  f_equal. apply Bool.eq_iff_eq_true.
  rewrite existsb_exists, bool_decide_eq_true. split.
  - intros (e & Hin%list_elem_of_In & He).
    unfold archive_directory in Hin.
    apply elem_of_app in Hin as [Hin|Hin].
    + apply list_elem_of_fmap in Hin as (d & -> & _). simpl in He.
      apply andb_true_iff in He as [_ Hends%endsWith_json_last].
      by rewrite dir_entry_last in Hends.
    + apply list_elem_of_fmap in Hin as ([k c] & -> & Hin). simpl in He.
      apply elem_of_map_to_list in Hin.
      destruct (Ht k c Hin He) as (d & o & -> & _ & Hparse).
      intros Hempty. specialize (Hall d).
      rewrite Hin, Hempty, lookup_empty in Hall. simpl in Hall. congruence.
  - intros (d & o & Hd)%map_choose. rewrite Hall in Hd.
    destruct (td_files t !! annotation_path d) as [c|] eqn:Hc; [|done].
    exists (ZipEntry (annotation_path d) File c). split.
    + apply list_elem_of_In. unfold archive_directory.
      apply elem_of_app. right. apply list_elem_of_fmap.
      exists (annotation_path d, c). split; [done|].
      by apply elem_of_map_to_list.
    + apply is_annotation_file_annotation_path.
Qed.

(** X24.  Right after a conversion the bulk read of the annotations gives
    the overlay store of the PDF back, and the container is one whose
    annotation files are all numbered pages. *)
Theorem convert_then_read_all now st F pdfFile images :
  endsWith (toLowerCase F) ".pdf" = true →
  library st !! F = Some pdfFile →
  pdf pdfFile = Some images →
  (∀ k, is_Some (default ∅ (annotations st !! F) !! k) →
        ∃ n : N, k = pretty n) →
  let result := convert now st F in
  get_all_annotations result.2 (regal_name F)
  = Reply (default ∅ (annotations st !! F)) ∧
  has_annotations result.2 (regal_name F)
  = Reply (bool_decide (default ∅ (annotations st !! F) ≠ ∅)) ∧
  built_container result.2 (regal_name F).
Proof.
  intros Hext Hf Hpdf Hkeys. simpl.
  rewrite (convert_ok _ _ _ _ _ Hext Hf Hpdf). simpl.
  set (t := converted_dir now F pdfFile images
              (default ∅ (annotations st !! F))).
  set (st' := Server _ _ _).
  assert (library st' !! regal_name F
          = Some (archiver_zip (archive_directory t))) as Hlib
    by apply lookup_insert_eq.
  assert (numbered t) as Ht by by apply numbered_converted_dir.
  destruct (get_all_annotations_archive st' _ t Hlib Ht)
    as (all & Hall & Hlookup).
  assert (all = default ∅ (annotations st !! F)) as ->.
  { apply map_eq. intros d. rewrite Hlookup. unfold t.
    rewrite converted_dir_annotation.
    destruct (default ∅ (annotations st !! F) !! d); simpl; [|done].
    apply JSON_strokes_roundtrip. }
  split_and!; [done| |by exists t].
  by apply (has_annotations_archive st' _ t).
Qed.

(** X25.  On a container whose annotation files are all numbered pages,
    the bulk read, the read of one page and the has-annotations flag
    agree: a page's overlay is the entry of the bulk read, or [] where it
    has none, and the flag is set exactly when the bulk read is not
    empty. *)
Theorem bulk_read_agrees_with_page_reads st f :
  built_container st f →
  ∃ all, get_all_annotations st f = Reply all ∧
    (∀ d, get_annotations st f d = Reply (default [] (all !! d))) ∧
    has_annotations st f = Reply (bool_decide (all ≠ ∅)).
Proof.
  intros (t & Hf & Ht).
  destruct (get_all_annotations_archive st f t Hf Ht)
    as (all & Hall & Hlookup).
  exists all. split_and!; [done| |by apply (has_annotations_archive st f t)].
  intros d. rewrite (get_annotations_archive _ _ _ _ Hf), Hlookup.
  destruct (td_files t !! annotation_path d) as [c|] eqn:Hc; [|done].
  destruct (Ht _ _ Hc (is_annotation_file_annotation_path d))
    as (d' & o & _ & _ & Hparse).
  simpl. by rewrite Hparse.
Qed.


(** X27.  A save on a container this server built passes the manifest and
    every page image through unchanged. *)
Theorem save_keeps_manifest_and_pages st f t (p : N)
    (strokes : option (list stroke)) :
  library st !! f = Some (archiver_zip (archive_directory t)) →
  let result := put_annotations st f (pretty p) strokes in
  get_manifest result.2 f = get_manifest st f ∧
  ∀ q, get_page result.2 f q = get_page st f q.
Proof.
  intros Hf. simpl. split.
  - by apply put_annotations_keeps_manifest with t.
  - intros q. by apply put_annotations_keeps_pages with t.
Qed.

(** X28.  Of two saves of the same page the later one wins: after both,
    every read of the container answers as after the later save alone.
    In particular saving the same overlay twice reads as saving it
    once. *)
Theorem later_save_wins st f b directory (p : N)
    (earlier later : option (list stroke)) :
  library st !! f = Some b →
  unzipper_open b = Some directory →
  let once := (put_annotations st f (pretty p) later).2 in
  let twice :=
    (put_annotations (put_annotations st f (pretty p) earlier).2
       f (pretty p) later).2 in
  get_manifest twice f = get_manifest once f ∧
  (∀ q, get_page twice f q = get_page once f q) ∧
  (∀ q, get_annotations twice f q = get_annotations once f q).
Proof.
  intros Hf Hb. simpl.
  rewrite !(put_annotations_ok _ _ _ _ _ _ Hf Hb). simpl.
  erewrite put_annotations_ok;
    [|simpl; apply lookup_insert_eq|apply zip_roundtrip].
  simpl.
  set (t1 := rebuilt directory (pretty p) later).
  set (t2 := rebuilt (archive_directory
                        (rebuilt directory (pretty p) earlier))
               (pretty p) later).
  assert (td_files t2 = td_files t1) as Hfiles.
  { apply map_eq. intros k. unfold t1, t2.
    destruct (decide (k = annotation_path (pretty p))) as [->|Hk].
    - unfold rebuilt. by rewrite !update_annotation_lookup.
    - rewrite rebuilt_other by done. unfold rebuilt.
      by rewrite !update_annotation_other by done. }
  split_and!.
  - erewrite !get_manifest_archive by (simpl; apply lookup_insert_eq).
    by rewrite Hfiles.
  - intros q.
    erewrite !get_page_archive by (simpl; apply lookup_insert_eq).
    by rewrite Hfiles.
  - intros q.
    erewrite !get_annotations_archive by (simpl; apply lookup_insert_eq).
    by rewrite Hfiles.
Qed.

End ReadProperties.

(** * The properties above on the example data *)
Section MoreExamples.
Import Reference Fixtures.

Local Abbreviation now := "2024-01-01T00:00:00.000Z".

(** The scratch directory of the conversion that gave [st1]. *)
Local Abbreviation song_dir :=
  (converted_dir (RT := runtime) now "song.pdf" (Bytes "abc")
     [Bytes "a"; Bytes "b"; Bytes "c"] {[ "2" := [pen] ]}).

Lemma session_valid_for_a_week_witness :
  isValidSession (Some "c0ffee") 2000 (createSession "c0ffee" 1000 auth0).2
  = (true, (createSession "c0ffee" 1000 auth0).2).
Proof.
  apply (session_valid_for_a_week auth0 "c0ffee" 1000 2000);
    [done|unfold SESSION_DURATION; lia].
Defined.

Lemma expired_session_is_deleted_witness :
  let checked := isValidSession (Some "c0ffee") 604801001 auth1 in
  checked.1 = false ∧
  sessions checked.2 !! "c0ffee" = None ∧
  ∀ later, (isValidSession (Some "c0ffee") later checked.2).1 = false.
Proof.
  apply (expired_session_is_deleted auth1 "c0ffee" 1000 604801001);
    [done|reflexivity|unfold SESSION_DURATION; lia].
Defined.

Lemma logout_ends_the_session_witness :
  let a' := (auth_logout (Some "c0ffee") auth1).2 in
  (isValidSession (Some "c0ffee") 2000 a').1 = false ∧
  (isValidSession (Some "decaf") 2000 a').1
  = (isValidSession (Some "decaf") 2000 auth1).1.
Proof.
  apply (logout_ends_the_session auth1 "c0ffee" "decaf" 2000). done.
Defined.

Lemma setup_then_login_witness :
  let set := auth_setup "5a17" auth0 (Some "secret") in
  let login := auth_login "c0ffee" 1000 set.2 (Some "secret") in
  set.1 = Reply () ∧
  login.1 = Sent (Reply "c0ffee") ∧
  (isValidSession (Some "c0ffee") 1000 login.2).1 = true.
Proof.
  apply (setup_then_login auth0 "5a17" "secret" "c0ffee" 1000);
    [reflexivity|simpl; lia|done].
Defined.

Lemma setup_never_overwrites_witness :
  ∃ message,
    auth_setup "beef" auth1 (Some "other") = (Status 400 message, auth1).
Proof.
  apply (setup_never_overwrites auth1 "beef" (Some "other")).
  simpl. by eexists.
Defined.

Lemma change_password_then_login_witness :
  let changed :=
    auth_change_password (Some "c0ffee") None 2000 "beef" auth1
      (Some "secret") (Some "longer-secret") in
  changed.1 = Sent (Reply ()) ∧
  sessions changed.2 = sessions auth1 ∧
  (auth_login "decaf" 3000 changed.2 (Some "longer-secret")).1
  = Sent (Reply "decaf").
Proof.
  apply (change_password_then_login auth1 (Some "c0ffee") None 2000 "beef"
           "secret" "longer-secret" "decaf" 3000);
    [vm_compute; reflexivity|done|vm_compute; reflexivity|simpl; lia].
Defined.

Lemma change_password_failure_keeps_password_witness :
  AUTH_FILE
    (auth_change_password (Some "c0ffee") None 2000 "beef" auth1
       (Some "wrong") (Some "longer-secret")).2
  = AUTH_FILE auth1.
Proof.
  apply (change_password_failure_keeps_password auth1 (Some "c0ffee") None
           2000 "beef" (Some "wrong") (Some "longer-secret")).
  vm_compute. discriminate.
Defined.

Lemma add_favorite_once_witness :
  let added := (add_favorite ["song.pdf"] (Some "tune.pdf")).2 in
  "tune.pdf" ∈ added ∧ NoDup added ∧
  (∀ g, g ∈ ["song.pdf"] → g ∈ added) ∧
  add_favorite added (Some "tune.pdf") = (Reply added, added).
Proof.
  apply (add_favorite_once ["song.pdf"] "tune.pdf");
    [done|apply NoDup_singleton].
Defined.

Lemma remove_favorite_removes_witness :
  let removed := (remove_favorite ["song.pdf"; "tune.pdf"] "song.pdf").2 in
  ("song.pdf" ∉ removed) ∧
  (∀ g, g ≠ "song.pdf" →
        (g ∈ removed ↔ g ∈ ["song.pdf"; "tune.pdf"])) ∧
  ("song.pdf" ∉ ["song.pdf"; "tune.pdf"] →
   (remove_favorite
      (add_favorite ["song.pdf"; "tune.pdf"] (Some "song.pdf")).2
      "song.pdf").2
   = ["song.pdf"; "tune.pdf"]).
Proof.
  apply (remove_favorite_removes ["song.pdf"; "tune.pdf"] "song.pdf"). done.
Defined.

Lemma add_file_to_shelf_once_witness :
  let added := add_file_to_shelf st_shelves "shelf-2" "tune.pdf" in
  ∃ s', added.1 = Reply s' ∧
    shelves added.2 !! 1%nat = Some s' ∧
    id s' = "shelf-2" ∧ shelf_name s' = "Duets" ∧
    "tune.pdf" ∈ files s' ∧
    (NoDup (@nil string) → NoDup (files s')) ∧
    (∀ j, j ≠ 1%nat → shelves added.2 !! j = shelves st_shelves !! j) ∧
    add_file_to_shelf added.2 "shelf-2" "tune.pdf" = (Reply s', added.2).
Proof.
  apply (add_file_to_shelf_once st_shelves "shelf-2" "tune.pdf" 1
           (Shelf "shelf-2" "Duets" [])).
  vm_compute. reflexivity.
Defined.

Lemma remove_file_from_shelf_removes_witness :
  let removed := remove_file_from_shelf st_shelves "shelf-1" "song.pdf" in
  ∃ s', removed.1 = Reply s' ∧
    shelves removed.2 !! 0%nat = Some s' ∧
    ("song.pdf" ∉ files s') ∧
    (∀ g, g ≠ "song.pdf" →
          (g ∈ files s' ↔ g ∈ ["intro.pdf"; "song.pdf"])) ∧
    (∀ j, j ≠ 0%nat → shelves removed.2 !! j = shelves st_shelves !! j) ∧
    library removed.2 = library st_shelves ∧
    annotations removed.2 = annotations st_shelves.
Proof.
  apply (remove_file_from_shelf_removes st_shelves "shelf-1" "song.pdf" 0
           (Shelf "shelf-1" "Etudes" ["intro.pdf"; "song.pdf"])).
  vm_compute. reflexivity.
Defined.

Lemma created_shelf_can_be_filled_witness :
  let created := create_shelf 1700000000000 st_shelves (Some "Trios") in
  ∃ s0, created.1 = Reply s0 ∧ files s0 = [] ∧
    shelves created.2 = (shelves st_shelves ++ [s0])%list ∧
    ∃ s1, (add_file_to_shelf created.2 (id s0) "tune.pdf").1 = Reply s1 ∧
          files s1 = ["tune.pdf"] ∧
          shelves (add_file_to_shelf created.2 (id s0) "tune.pdf").2
          = (shelves st_shelves ++ [s1])%list.
Proof.
  apply (created_shelf_can_be_filled 1700000000000 st_shelves (Some "Trios")
           "tune.pdf").
  intros s Hs. simpl in Hs.
  apply elem_of_cons in Hs as [->|Hs]; [vm_compute; discriminate|].
  apply elem_of_cons in Hs as [->|Hs]; [vm_compute; discriminate|].
  by apply elem_of_nil in Hs.
Defined.

Lemma put_pdf_annotations_roundtrip_witness :
  let st' := (put_pdf_annotations st0 "song.pdf" "1" (Some [highlight])).2 in
  (∃ m, get_pdf_annotations st' "song.pdf" = Reply m ∧
        m !! "1" = Some [highlight] ∧
        ∀ q, q ≠ "1" →
          m !! q = default ∅ (annotations st0 !! "song.pdf") !! q) ∧
  ∀ g, g ≠ "song.pdf" →
       get_pdf_annotations st' g = get_pdf_annotations st0 g.
Proof.
  apply (put_pdf_annotations_roundtrip st0 "song.pdf" "1" highlight []);
    vm_compute; reflexivity.
Defined.

Lemma put_pdf_annotations_empty_witness :
  let st' := (put_pdf_annotations st0 "song.pdf" "2" (Some [])).2 in
  (∃ m, get_pdf_annotations st' "song.pdf" = Reply m ∧ m !! "2" = None ∧
        ∀ q, q ≠ "2" →
          m !! q = default ∅ (annotations st0 !! "song.pdf") !! q) ∧
  ("song.pdf" ∈ dom (annotations st') ↔
   ∃ q, q ≠ "2" ∧
        is_Some (default ∅ (annotations st0 !! "song.pdf") !! q)) ∧
  ∀ g, g ≠ "song.pdf" →
       get_pdf_annotations st' g = get_pdf_annotations st0 g.
Proof.
  apply (put_pdf_annotations_empty st0 "song.pdf" "2" (Some [])). by right.
Defined.

Lemma clean_store_st0 : clean_store (annotations st0).
Proof.
  intros f m Hf. simpl in Hf. apply lookup_singleton_Some in Hf as [<- <-].
  split; [apply map_non_empty_singleton|].
  by intros p s [<- <-]%lookup_singleton_Some.
Qed.

Lemma clean_store_kept_witness :
  (∀ f p strokes,
     own_key f = true → own_key p = true →
     clean_store (annotations (put_pdf_annotations st0 f p strokes).2)) ∧
  (∀ f, clean_store (annotations (delete_pdf_annotations st0 f).2)) ∧
  (∀ now F, clean_store (annotations (convert now st0 F).2)) ∧
  (∀ f newName, clean_store (annotations (rename_file st0 f newName).2)).
Proof.
  apply (clean_store_kept st0). apply clean_store_st0.
Defined.

Lemma listed_iff_has_strokes_witness :
  ∃ listed, list_annotated st0 = Reply listed ∧
    ∀ f, f ∈ listed ↔
      ∃ m p x l, get_pdf_annotations st0 f = Reply m ∧
                 m !! p = Some (x :: l).
Proof.
  apply (listed_iff_has_strokes st0). apply clean_store_st0.
Defined.

Lemma rename_moves_file_witness :
  let renamed := rename_file st_shelves "song.pdf" (Some "aria") in
  library renamed.2 !! "aria.pdf" = Some (Bytes "abc") ∧
  library renamed.2 !! "song.pdf" = None.
Proof.
  destruct (rename_moves_file st_shelves "song.pdf" "aria" (Bytes "abc"))
    as (_ & Hnew & Hold & _);
    [vm_compute; discriminate|vm_compute; reflexivity
    |vm_compute; reflexivity
    |vm_compute; discriminate|vm_compute; reflexivity|].
  split; [exact Hnew|exact Hold].
Defined.

Lemma rename_keeps_extension_witness :
  endsWith (toLowerCase "aria.pdf") (toLowerCase (extname "song.pdf")) = true.
Proof.
  apply (rename_keeps_extension st_shelves "song.pdf" (Some "aria")
           (Renamed "song.pdf" "aria.pdf" "/library/aria.pdf")
           (rename_file st_shelves "song.pdf" (Some "aria")).2).
  vm_compute. reflexivity.
Defined.

Lemma rename_refuses_existing_witness :
  rename_file st_shelves "song.pdf" (Some "tune")
  = (Status 400 "A file with that name already exists", st_shelves).
Proof.
  apply (rename_refuses_existing st_shelves "song.pdf" "tune" (Bytes "abc"));
    [vm_compute; discriminate|vm_compute; reflexivity
    |vm_compute; discriminate|vm_compute; by eexists].
Defined.

Lemma rename_moves_annotations_witness :
  let renamed := rename_file st_shelves "song.pdf" (Some "aria") in
  annotations renamed.2 !! final_name "song.pdf" "aria"
  = Some {[ "2" := [pen] ]} ∧
  annotations renamed.2 !! "song.pdf" = None ∧
  ∀ g, g ≠ "song.pdf" → g ≠ final_name "song.pdf" "aria" →
       annotations renamed.2 !! g = annotations st_shelves !! g.
Proof.
  apply (rename_moves_annotations st_shelves "song.pdf" "aria" (Bytes "abc")
           {[ "2" := [pen] ]});
    [vm_compute; discriminate|vm_compute; reflexivity
    |vm_compute; reflexivity
    |vm_compute; discriminate|vm_compute; reflexivity
    |vm_compute; reflexivity|vm_compute; reflexivity].
Defined.

Lemma rename_other_type_keeps_store_witness :
  annotations (rename_file st1 "song.regal" (Some "aria")).2
  = annotations st1.
Proof.
  apply (rename_other_type_keeps_store st1 "song.regal" (Some "aria")).
  vm_compute. discriminate.
Defined.

Lemma rename_to_own_name_drops_annotations_witness :
  let renamed := rename_file st0 "song.pdf" (Some "song") in
  (∃ body, renamed.1 = Reply body ∧ ren_newName body = "song.pdf") ∧
  library renamed.2 = library st0 ∧
  shelves renamed.2 = shelves st0 ∧
  annotations renamed.2 !! "song.pdf" = None ∧
  ∀ g, g ≠ "song.pdf" →
       annotations renamed.2 !! g = annotations st0 !! g.
Proof.
  apply (rename_to_own_name_drops_annotations st0 "song.pdf" "song"
           (Bytes "abc"));
    [vm_compute; discriminate|vm_compute; reflexivity
    |vm_compute; reflexivity|vm_compute; reflexivity].
Defined.

Lemma convert_then_read_all_witness :
  get_all_annotations st1 "song.regal" = Reply {[ "2" := [pen] ]}.
Proof.
  assert (∀ k, is_Some (default ∅ (annotations st0 !! "song.pdf") !! k) →
               ∃ n : N, k = pretty n) as Hkeys.
  { intros k [x Hk]. exists 2%N. simpl in Hk.
    rewrite lookup_singleton_eq in Hk. simpl in Hk.
    by apply lookup_singleton_Some in Hk as [<- _]. }
  destruct (convert_then_read_all now st0 "song.pdf" (Bytes "abc")
              [Bytes "a"; Bytes "b"; Bytes "c"]
              eq_refl eq_refl eq_refl Hkeys) as (Hall & _ & _).
  exact Hall.
Defined.

Lemma bulk_read_agrees_with_page_reads_witness :
  ∃ all, get_all_annotations st1 "song.regal" = Reply all ∧
    (∀ d, get_annotations st1 "song.regal" d
          = Reply (default [] (all !! d))) ∧
    has_annotations st1 "song.regal" = Reply (bool_decide (all ≠ ∅)).
Proof.
  apply (bulk_read_agrees_with_page_reads st1 "song.regal").
  exists song_dir. split; [vm_compute; reflexivity|].
  apply numbered_checked. vm_compute. reflexivity.
Defined.


Lemma save_keeps_manifest_and_pages_witness :
  let result := put_annotations st1 "song.regal" (pretty 1%N) (Some [pen]) in
  get_manifest result.2 "song.regal" = get_manifest st1 "song.regal" ∧
  ∀ q, get_page result.2 "song.regal" q = get_page st1 "song.regal" q.
Proof.
  apply (save_keeps_manifest_and_pages st1 "song.regal" song_dir 1
           (Some [pen])).
  vm_compute. reflexivity.
Defined.

Lemma later_save_wins_witness :
  let once :=
    (put_annotations st1 "song.regal" (pretty 1%N) (Some [highlight])).2 in
  let twice :=
    (put_annotations
       (put_annotations st1 "song.regal" (pretty 1%N) (Some [pen])).2
       "song.regal" (pretty 1%N) (Some [highlight])).2 in
  get_manifest twice "song.regal" = get_manifest once "song.regal" ∧
  (∀ q, get_page twice "song.regal" q = get_page once "song.regal" q) ∧
  (∀ q, get_annotations twice "song.regal" q
        = get_annotations once "song.regal" q).
Proof.
  apply (later_save_wins st1 "song.regal"
           (Zip (archive_directory song_dir)) (archive_directory song_dir)
           1 (Some [pen]) (Some [highlight]));
    [vm_compute; reflexivity|reflexivity].
Defined.

End MoreExamples.
